(** * Swap initiation (initSwap): a shallow embedding and its properties

    The flow under study is [initSwap] of the swap module: an rxjs
    Observable whose subscriber function starts the async function
    [confirmSwap].  The embedding keeps the shape of the source:

    - values of the collaborators (hardware device, HTTP client, account
      bridge, trust configuration) are read from a [World] record, one
      field per imported function;
    - [confirmSwap] is written in a small monad that threads the closure
      variable [unsubscribed], counts the suspension points ([await]) and
      records every external call and every observer call in a trace;
    - a thrown exception, an early [return] and a normal value are the three
      ways a step can finish. *)

From Stdlib Require Import String List ZArith QArith Qpower Qfield Lia Bool.
From Stdlib Require Import Sorting.Sorted Sorting.Permutation.
Import ListNotations.
Open Scope string_scope.

(** ** bignumber.js *)

(** The finite values of bignumber.js, each represented by the rational it
    denotes.  Only [div] rounds: to [DECIMAL_PLACES] decimals with
    [ROUNDING_MODE]; the library's defaults are 20 and ROUND_HALF_UP
    (nearest, ties away from zero).  [pow] with a non-negative integer
    exponent is exact (POW_PRECISION is 0).  The non-finite values are not
    modelled: the only divisor the flow uses is a power of ten. *)
Module BigNumber.

Definition t := Q.

Definition DECIMAL_PLACES : N := 20.

Definition of_Z (z : Z) : t := inject_Z z.

(** ROUND_HALF_UP on a rational given by numerator and denominator. *)
Definition round_half_up (q : Q) : Z :=
  let n := Qnum q in
  let d := Zpos (Qden q) in
  (Z.sgn n * ((2 * Z.abs n + d) / (2 * d)))%Z.

Definition scale : Z := (10 ^ Z.of_N DECIMAL_PLACES)%Z.

Definition div (x y : t) : t :=
  Qred (Qmake (round_half_up (x / y * inject_Z scale)) (Z.to_pos scale)).

Definition pow (x : t) (n : N) : t := Qred (Qpower x (Z.of_N n)).

Definition eqb (x y : t) : bool := Qeq_bool x y.

End BigNumber.

(** ** Data model *)

(** A JavaScript error object: its [name] and its [message]. *)
Record JsError := { name : string; message : string }.

(** [new SwapGenericAPIError()]: a custom error class of ../errors, whose
    message defaults to its name. *)
Definition SwapGenericAPIError : JsError :=
  {| name := "SwapGenericAPIError"; message := "SwapGenericAPIError" |}.

(** [new Error(message)]. *)
Definition Error (msg : string) : JsError := {| name := "Error"; message := msg |}.

(** What [invariant(false, message)] throws. *)
Definition InvariantViolation (msg : string) : JsError :=
  {| name := "Invariant Violation"; message := msg |}.

(** Destructuring [undefined]. *)
Definition TypeError (msg : string) : JsError := {| name := "TypeError"; message := msg |}.

(** How a call finishes: with a value, or by throwing (a rejected promise
    when the call is awaited). *)
Inductive Completion (A : Type) : Type :=
| Normal (a : A)
| Throw (e : JsError).
Arguments Normal {A} a.
Arguments Throw {A} e.

(** [Buffer.from(s, "hex")], kept symbolic, or a buffer of the trust
    configuration. *)
Inductive Buffer : Type :=
| BufferFromHex (hex : string)
| BufferOf (bytes : string).

Record Unit := { code : string; magnitude : N }.

Record Currency := { type : string; id : string; family : string }.

Record Account := {
  freshAddress : string;
  freshAddressPath : string;
  derivationMode : string;
  currency : Currency;
  account_unit : Unit }.

(** An account or a sub-account; the flow only reads it through
    [getAccountCurrency], [getAccountUnit] and [getMainAccount]. *)
Inductive AccountLike : Type :=
| AccountOf (a : Account)
| TokenAccountOf (token : Currency) (units : list Unit).

Record Exchange := {
  fromParentAccount : option Account;
  fromAccount : AccountLike;
  toParentAccount : option Account;
  toAccount : AccountLike }.

Record ExchangeRate := { provider : string; rateId : string }.

Record Transaction := {
  tx_family : string;
  amount : BigNumber.t;
  recipient : string }.

(** The body of the POST to [swapAPIBaseURL/swap] (one object in a list). *)
Record SwapRequest := {
  req_provider : string;
  amountFrom : BigNumber.t;
  from : string;
  to : string;
  req_rateId : string;
  address : string;
  refundAddress : string;
  deviceTransactionId : string }.

(** One element of the response's [data]. *)
Record SwapResult := {
  swapId : string;
  res_provider : string;
  payinAddress : string;
  binaryPayload : string;
  signature : string }.

(** The resolved value of [network(...)] when it is truthy; [data] is
    [None] when the field is missing or falsy. *)
Record Response := { data : option (list SwapResult) }.

Record ProviderNameAndSignature := {
  nameAndPubkey : Buffer;
  provider_signature : Buffer }.

Record CurrencySwapConfig := {
  config : Buffer;
  config_signature : Buffer }.

Record AddressParameters := { addressParameters : Buffer }.

Record TransactionErrors := {
  err_recipient : option JsError;
  err_amount : option JsError }.

Record TransactionStatus := {
  errors : TransactionErrors;
  estimatedFees : BigNumber.t }.

(** The tagged union [SwapRequestEvent]. *)
Inductive SwapRequestEvent : Type :=
| init_swap_requested
| init_swap_result (transaction : Transaction) (swap_id : string)
| init_swap_error (error : JsError).

(** The methods of the device's [Swap] session, with their arguments. *)
Inductive DeviceCommand : Type :=
| startNewTransaction
| setPartnerKey (partnerNameAndPublicKey : Buffer)
| checkPartner (signatureOfPartnerData : Buffer)
| processTransaction (transaction : Buffer) (fee : BigNumber.t)
| checkTransactionSignature (transactionSignature : Buffer)
| checkPayoutAddress (payoutConfig configSignature addressParams : Buffer)
| checkRefundAddress (refundConfig configSignature addressParams : Buffer)
| signCoinTransaction.

(** What the flow does to the outside, in the order it does it: the calls
    it makes, each with the way the call finished, the calls on the
    observer [o], and the moment the caller runs the teardown. *)
Inductive Action : Type :=
| WithDevice (deviceId : string)
| DeviceCall (c : DeviceCommand) (r : Completion string)
| NetworkCall (req : SwapRequest) (r : Completion (option Response))
| PrepareTransactionCall (a : Account) (t : Transaction) (r : Completion Transaction)
| GetTransactionStatusCall (a : Account) (t : Transaction) (r : Completion TransactionStatus)
| AddressParametersCall (fam path mode : string) (r : Completion AddressParameters)
| Next (e : SwapRequestEvent)
| Complete
| Teardown.

Definition Trace := list Action.

(** ** The collaborators *)

(** The account bridge returned by [getAccountBridge]; its two async
    methods are read from the world. *)
Record AccountBridge := {
  prepareTransaction : Account -> Transaction -> Completion Transaction;
  getTransactionStatus : Account -> Transaction -> Completion TransactionStatus }.

(** The patch the flow passes to [updateTransaction]: [{ recipient }]. *)
Record Patch := { patch_recipient : string }.

(** Modelled from the spec: the bridge's [updateTransaction] (the bridges
    are not in src).  "adaptRecipient(draft, newRecipient) -> draft'",
    "the draft transaction's recipient is unconditionally overwritten":
    the patch is spread over the draft, [{ ...t, ...patch }]. *)
Definition updateTransaction (t : Transaction) (patch : Patch) : Transaction :=
  {| tx_family := tx_family t; amount := amount t; recipient := patch_recipient patch |}.

(** Everything [initSwap] imports and does not define.  The device session
    [new Swap(transport)] answers each command with a completion (for
    [startNewTransaction] the device transaction id; the other replies are
    not read).  The three account getters are total on well-typed
    accounts; the table lookups can throw. *)
Record World := {
  getEnv : string -> bool;
  mockInitSwap : Exchange -> ExchangeRate -> string -> Trace;
  swap : DeviceCommand -> Completion string;
  network : SwapRequest -> Completion (option Response);
  getAccountCurrency : AccountLike -> Currency;
  getAccountUnit : AccountLike -> Unit;
  getMainAccount : AccountLike -> option Account -> Account;
  getProviderNameAndSignature : string -> Completion ProviderNameAndSignature;
  getAccountBridge : Account -> Completion AccountBridge;
  getAbandonSeedAddress : string -> Completion string;
  signatureExport : Buffer -> Completion Buffer;
  getSerializedAddressParameters : string -> string -> string -> Completion AddressParameters;
  getCurrencySwapConfig : Currency -> Completion CurrencySwapConfig }.

(** ** The monad of an async function body *)

(** The closure state of one subscription: the flag [unsubscribed], the
    number of suspension points passed, and the trace (latest first). *)
Record FlowState := {
  unsubscribed : bool;
  awaits : nat;
  trace : Trace }.

(** A step finishes with a value, by [return;] or by throwing. *)
Inductive Step (A : Type) : Type :=
| Value (a : A)
| Returned
| Thrown (e : JsError).
Arguments Value {A} a.
Arguments Returned {A}.
Arguments Thrown {A} e.

Definition Flow (A : Type) : Type := FlowState -> Step A * FlowState.

Definition ret {A} (a : A) : Flow A := fun s => (Value a, s).

Definition bind {A B} (m : Flow A) (k : A -> Flow B) : Flow B :=
  fun s =>
    match m s with
    | (Value a, s') => k a s'
    | (Returned, s') => (Returned, s')
    | (Thrown e, s') => (Thrown e, s')
    end.

Declare Scope flow_scope.
Delimit Scope flow_scope with flow.
Notation "x <- m ;; k" := (bind m (fun x => k))
  (at level 61, m at next level, right associativity) : flow_scope.
Notation "m ;; k" := (bind m (fun _ => k))
  (at level 61, right associativity) : flow_scope.
Open Scope flow_scope.

Definition throw {A} (e : JsError) : Flow A := fun s => (Thrown e, s).

Definition return_ {A} : Flow A := fun s => (Returned, s).

Definition lift {A} (c : Completion A) : Flow A :=
  match c with
  | Normal a => ret a
  | Throw e => throw e
  end.

Definition log (a : Action) : Flow unit :=
  fun s => (Value tt, {| unsubscribed := unsubscribed s; awaits := awaits s; trace := a :: trace s |}).

Definition get_unsubscribed : Flow bool := fun s => (Value (unsubscribed s), s).

Definition set_unsubscribed : Flow unit :=
  fun s => (Value tt, {| unsubscribed := true; awaits := awaits s; trace := trace s |}).

(** The teardown returned by the subscriber function: [unsubscribed = true]. *)
Definition teardown : Flow unit := log Teardown ;; set_unsubscribed.

(** A suspension point.  [cancelAt = Some k] says that the caller
    unsubscribes while the flow is suspended for the k-th time (counting
    from 0); [None] that it never does while the flow runs.  These are
    the points at which other code can run between two steps of the
    flow; a teardown called from inside the observer's own [next]
    handler, during a call of [o.next], is not among them. *)
Definition suspend (cancelAt : option nat) : Flow unit :=
  fun s =>
    let here := match cancelAt with Some k => Nat.eqb k (awaits s) | None => false end in
    let '(_, s1) := (if here then teardown else ret tt) s in
    (Value tt, {| unsubscribed := unsubscribed s1; awaits := S (awaits s1); trace := trace s1 |}).

(** [await call]: the call is made, the flow is suspended, and it resumes
    with the call's value or with its exception. *)
Definition await {A} (cancelAt : option nat) (call : Completion A -> Action) (c : Completion A) : Flow A :=
  log (call c) ;; suspend cancelAt ;; lift c.

(** [try { body } catch (e) { handler }]. *)
Definition try_catch {A} (body : Flow A) (handler : JsError -> Flow A) : Flow A :=
  fun s =>
    match body s with
    | (Thrown e, s') => handler e s'
    | r => r
    end.

Definition o_next (e : SwapRequestEvent) : Flow unit := log (Next e).

Definition o_complete : Flow unit := log Complete.

(** [invariant(condition, message)]. *)
Definition invariant (condition : bool) (msg : string) : Flow unit :=
  if condition then ret tt else throw (InvariantViolation msg).

(** ** initSwap *)

(** [amount.div(BigNumber(10).pow(unitFrom.magnitude))]. *)
Definition apiAmount (amount : BigNumber.t) (unitFrom : Unit) : BigNumber.t :=
  BigNumber.div amount (BigNumber.pow (BigNumber.of_Z 10) (magnitude unitFrom)).

Definition nonCryptoCurrencies : JsError := Error "How do I handle non CryptoCurrencies".

Definition abandonseedRecipient : string :=
  "Recipient address should never be the abandonseed address".

Definition is_falsy {A} (v : option A) : bool :=
  match v with Some _ => false | None => true end.

(** [res.data], read on a truthy [res]. *)
Definition res_data (res : option Response) : option (list SwapResult) :=
  match res with Some r => data r | None => None end.

(** [const { swapId, provider } = res.data[0]]: a TypeError when the
    element is undefined. *)
Definition first_result (res : option Response) : Flow SwapResult :=
  match res_data res with
  | Some (swapResult :: _) => ret swapResult
  | _ => throw (TypeError "Cannot destructure property 'swapId' of 'swapResult' as it is undefined.")
  end.

(** [errors.recipient || errors.amount]. *)
Definition recipient_or_amount (e : TransactionErrors) : option JsError :=
  match err_recipient e with
  | Some r => Some r
  | None => err_amount e
  end.

Section InitSwap.

Variable w : World.
Variable cancelAt : option nat.
Variable exchange : Exchange.
Variable exchangeRate : ExchangeRate.
Variable transaction : Transaction.

(** [await swap.command(...)]. *)
Definition device (c : DeviceCommand) : Flow string :=
  await cancelAt (DeviceCall c) (swap w c).

(** [await perFamily[family].getSerializedAddressParameters(path, mode)]. *)
Definition addressParametersOf (c : Currency) (a : Account) : Flow AddressParameters :=
  await cancelAt
    (AddressParametersCall (family c) (freshAddressPath a) (derivationMode a))
    (getSerializedAddressParameters w (family c) (freshAddressPath a) (derivationMode a)).

Definition confirmSwap : Flow Datatypes.unit :=
  nonce <- device startNewTransaction ;;
  let refundCurrency := getAccountCurrency w (fromAccount exchange) in
  let unitFrom := getAccountUnit w (fromAccount exchange) in
  let payoutCurrency := getAccountCurrency w (toAccount exchange) in
  let refundAccount := getMainAccount w (fromAccount exchange) (fromParentAccount exchange) in
  let payoutAccount := getMainAccount w (toAccount exchange) (toParentAccount exchange) in
  let request :=
    {| req_provider := provider exchangeRate;
       amountFrom := apiAmount (amount transaction) unitFrom;
       from := id refundCurrency;
       to := id payoutCurrency;
       req_rateId := rateId exchangeRate;
       address := freshAddress payoutAccount;
       refundAddress := freshAddress refundAccount;
       deviceTransactionId := nonce |} in
  res <- try_catch
           (await cancelAt (NetworkCall request) (network w request))
           (fun _ =>
              o_next (init_swap_error SwapGenericAPIError) ;;
              o_complete ;;
              set_unsubscribed ;;
              ret None) ;;
  stop <- get_unsubscribed ;;
  if stop || is_falsy res || is_falsy (res_data res) then return_ else
  swapResult <- first_result res ;;
  providerNameAndSignature <- lift (getProviderNameAndSignature w (res_provider swapResult)) ;;
  (if negb (type payoutCurrency =? "CryptoCurrency") then throw nonCryptoCurrencies else ret tt) ;;
  (if negb (type refundCurrency =? "CryptoCurrency") then throw nonCryptoCurrencies else ret tt) ;;
  accountBridge <- lift (getAccountBridge w refundAccount) ;;
  let transaction1 :=
    updateTransaction transaction {| patch_recipient := payinAddress swapResult |} in
  abandon <- lift (getAbandonSeedAddress w (id refundCurrency)) ;;
  invariant (negb (recipient transaction1 =? abandon)) abandonseedRecipient ;;
  transaction2 <- await cancelAt (PrepareTransactionCall refundAccount transaction1)
                    (prepareTransaction accountBridge refundAccount transaction1) ;;
  status <- await cancelAt (GetTransactionStatusCall refundAccount transaction2)
              (getTransactionStatus accountBridge refundAccount transaction2) ;;
  match recipient_or_amount (errors status) with
  | Some e => throw e
  | None =>
  device (setPartnerKey (nameAndPubkey providerNameAndSignature)) ;;
  device (checkPartner (provider_signature providerNameAndSignature)) ;;
  device (processTransaction (BufferFromHex (binaryPayload swapResult)) (estimatedFees status)) ;;
  goodSign <- lift (signatureExport w (BufferFromHex (signature swapResult))) ;;
  device (checkTransactionSignature goodSign) ;;
  payoutAddressParameters <- addressParametersOf payoutCurrency payoutAccount ;;
  payoutConfig <- lift (getCurrencySwapConfig w payoutCurrency) ;;
  device (checkPayoutAddress (config payoutConfig) (config_signature payoutConfig)
            (addressParameters payoutAddressParameters)) ;;
  refundAddressParameters <- addressParametersOf refundCurrency refundAccount ;;
  refundConfig <- lift (getCurrencySwapConfig w refundCurrency) ;;
  stop <- get_unsubscribed ;;
  if stop then return_ else
  o_next init_swap_requested ;;
  device (checkRefundAddress (config refundConfig) (config_signature refundConfig)
            (addressParameters refundAddressParameters)) ;;
  device signCoinTransaction ;;
  stop <- get_unsubscribed ;;
  if stop then return_ else
  o_next (init_swap_result transaction2 (swapId swapResult))
  end.

(** [confirmSwap().then(onFulfilled, onRejected)]: the reaction runs
    after one more suspension. *)
Definition settle (r : Step Datatypes.unit) : Flow Datatypes.unit :=
  suspend cancelAt ;;
  match r with
  | Thrown e =>
      o_next (init_swap_error e) ;;
      o_complete ;;
      set_unsubscribed
  | _ =>
      o_complete ;;
      set_unsubscribed
  end.

(** The subscriber function given to [Observable.create]: what one
    subscription does, oldest action first. *)
Definition subscribe : Trace :=
  let '(r, s) := confirmSwap {| unsubscribed := false; awaits := 0; trace := [] |} in
  rev (trace (snd (settle r s))).

(** [initSwap]: the mock when the environment asks for it, otherwise the
    subscription inside [withDevice("")], which hands the job an open
    transport. *)
Definition initSwap (deviceId : string) : Trace :=
  if getEnv w "MOCK" then mockInitSwap w exchange exchangeRate deviceId
  else WithDevice "" :: subscribe.

End InitSwap.

(** ** Reading a trace *)

(** The events the flow hands to [o.next], oldest first: what it emits.
    (A Subscriber that rxjs has closed, by the unsubscription or by
    [o.complete], drops what it is handed.) *)
Fixpoint events (t : Trace) : list SwapRequestEvent :=
  match t with
  | [] => []
  | Next e :: t' => e :: events t'
  | _ :: t' => events t'
  end.

(** The device commands issued, oldest first. *)
Fixpoint deviceCommands (t : Trace) : list DeviceCommand :=
  match t with
  | [] => []
  | DeviceCall c _ :: t' => c :: deviceCommands t'
  | _ :: t' => deviceCommands t'
  end.

(** The calls of the two async bridge methods. *)
Definition is_bridge_call (a : Action) : bool :=
  match a with
  | PrepareTransactionCall _ _ _ | GetTransactionStatusCall _ _ _ => true
  | _ => false
  end.

Definition bridgeCalls (t : Trace) : Trace := filter is_bridge_call t.

(** The [type] field of an event. *)
Definition eventType (e : SwapRequestEvent) : string :=
  match e with
  | init_swap_requested => "init-swap-requested"
  | init_swap_result _ _ => "init-swap-result"
  | init_swap_error _ => "init-swap-error"
  end.

Definition is_terminal (e : SwapRequestEvent) : bool :=
  match e with
  | init_swap_requested => false
  | _ => true
  end.

Definition terminals (t : Trace) : list SwapRequestEvent := filter is_terminal (events t).

(** No event follows a terminal one. *)
Fixpoint terminal_is_last (l : list SwapRequestEvent) : bool :=
  match l with
  | [] => true
  | e :: l' => if is_terminal e then is_falsy (hd_error l') else terminal_is_last l'
  end.

(** What happens after the caller has unsubscribed. *)
Fixpoint after_teardown (t : Trace) : Trace :=
  match t with
  | [] => []
  | Teardown :: t' => t'
  | _ :: t' => after_teardown t'
  end.

(** The name of a device method. *)
Definition commandName (c : DeviceCommand) : string :=
  match c with
  | startNewTransaction => "startNewTransaction"
  | setPartnerKey _ => "setPartnerKey"
  | checkPartner _ => "checkPartner"
  | processTransaction _ _ => "processTransaction"
  | checkTransactionSignature _ => "checkTransactionSignature"
  | checkPayoutAddress _ _ _ => "checkPayoutAddress"
  | checkRefundAddress _ _ _ => "checkRefundAddress"
  | signCoinTransaction => "signCoinTransaction"
  end.

(** Device commands and events in the order they happen: the method name
    of each command, the [type] of each event. *)
Fixpoint timeline (t : Trace) : list string :=
  match t with
  | [] => []
  | DeviceCall c _ :: t' => commandName c :: timeline t'
  | Next e :: t' => eventType e :: timeline t'
  | _ :: t' => timeline t'
  end.

(** A device call that was rejected. *)
Definition device_rejected (a : Action) : bool :=
  match a with
  | DeviceCall _ (Throw _) => true
  | _ => false
  end.

(** The rate-lock call resolved with a falsy response or one without [data]. *)
Definition no_data (r : option Response) : bool := is_falsy r || is_falsy (res_data r).

(** Classifiers of actions, for a first reading of a trace. *)
Definition rate_lock_rejected (a : Action) : bool :=
  match a with NetworkCall _ (Throw _) => true | _ => false end.

Definition rate_lock_resolved (a : Action) : bool :=
  match a with NetworkCall _ (Normal _) => true | _ => false end.

Definition rate_lock_with_data (a : Action) : bool :=
  match a with NetworkCall _ (Normal r) => negb (no_data r) | _ => true end.

Definition status_received (a : Action) : bool :=
  match a with GetTransactionStatusCall _ _ (Normal _) => true | _ => false end.

Definition is_prepare (a : Action) : bool :=
  match a with PrepareTransactionCall _ _ _ => true | _ => false end.

Definition is_result (a : Action) : bool :=
  match a with Next (init_swap_result _ _) => true | _ => false end.

Definition is_teardown (a : Action) : bool :=
  match a with Teardown => true | _ => false end.

(** The place of the first [x] in [l]. *)
Fixpoint position (x : string) (l : list string) : option nat :=
  match l with
  | [] => None
  | y :: l' => if (x =? y)%string then Some 0%nat else option_map S (position x l')
  end.

(** The fixed order of the device commands and the two events of a
    successful run. *)
Definition timelineOrder : list string :=
  ["startNewTransaction"; "setPartnerKey"; "checkPartner"; "processTransaction";
   "checkTransactionSignature"; "checkPayoutAddress"; "init-swap-requested";
   "checkRefundAddress"; "signCoinTransaction"; "init-swap-result"].

(** [l] goes along [order] and may end with one [init-swap-error]. *)
Fixpoint follows (l order : list string) : bool :=
  match l with
  | [] => true
  | x :: l' =>
      match order with
      | y :: order' =>
          if (x =? y)%string then follows l' order'
          else (x =? "init-swap-error")%string && is_falsy (hd_error l')
      | [] => (x =? "init-swap-error")%string && is_falsy (hd_error l')
      end
  end.

(** What happened before the caller unsubscribed (everything, when it did
    not). *)
Fixpoint before_teardown (t : Trace) : Trace :=
  match t with
  | [] => []
  | Teardown :: _ => []
  | a :: t' => a :: before_teardown t'
  end.

(** The two commands on which the device asks the user. *)
Definition asksApproval (s : string) : bool :=
  ((s =? "checkRefundAddress") || (s =? "signCoinTransaction"))%string.

Definition is_requested (e : SwapRequestEvent) : bool :=
  match e with init_swap_requested => true | _ => false end.

Definition is_rate_lock (a : Action) : bool :=
  match a with NetworkCall _ _ => true | _ => false end.

Definition is_status (a : Action) : bool :=
  match a with GetTransactionStatusCall _ _ _ => true | _ => false end.

Definition is_complete (a : Action) : bool :=
  match a with Complete => true | _ => false end.

(** Two commands of one method. *)
Definition sameMethod (c d : DeviceCommand) : bool :=
  match c, d with
  | startNewTransaction, startNewTransaction
  | setPartnerKey _, setPartnerKey _
  | checkPartner _, checkPartner _
  | processTransaction _ _, processTransaction _ _
  | checkTransactionSignature _, checkTransactionSignature _
  | checkPayoutAddress _ _ _, checkPayoutAddress _ _ _
  | checkRefundAddress _ _ _, checkRefundAddress _ _ _
  | signCoinTransaction, signCoinTransaction => true
  | _, _ => false
  end.

(** A device call of the method of [c]. *)
Definition callOf (c : DeviceCommand) (a : Action) : bool :=
  match a with DeviceCall d _ => sameMethod c d | _ => false end.

(** ** Sample worlds *)

Module Sample.

Definition bitcoin : Currency :=
  {| type := "CryptoCurrency"; id := "bitcoin"; family := "bitcoin" |}.

Definition ethereum : Currency :=
  {| type := "CryptoCurrency"; id := "ethereum"; family := "ethereum" |}.

Definition usdt : Currency :=
  {| type := "TokenCurrency"; id := "ethereum/erc20/usd_tether__erc20_"; family := "ethereum" |}.

Definition BTC : Unit := {| code := "BTC"; magnitude := 8 |}.
Definition ETH : Unit := {| code := "ETH"; magnitude := 18 |}.
Definition USDT : Unit := {| code := "USDT"; magnitude := 6 |}.

Definition btcAccount : Account :=
  {| freshAddress := "bc1qfresh"; freshAddressPath := "84'/0'/0'/0/3";
     derivationMode := "native_segwit"; currency := bitcoin; account_unit := BTC |}.

Definition ethAccount : Account :=
  {| freshAddress := "0xfresh"; freshAddressPath := "44'/60'/0'/0/0";
     derivationMode := ""; currency := ethereum; account_unit := ETH |}.

Definition exchange : Exchange :=
  {| fromParentAccount := None; fromAccount := AccountOf btcAccount;
     toParentAccount := None; toAccount := AccountOf ethAccount |}.

(** Bitcoin to a token account held by [ethAccount]. *)
Definition tokenExchange : Exchange :=
  {| fromParentAccount := None; fromAccount := AccountOf btcAccount;
     toParentAccount := Some ethAccount; toAccount := TokenAccountOf usdt [USDT] |}.

Definition exchangeRate : ExchangeRate := {| provider := "changelly"; rateId := "rate-7" |}.

(** 1.5 BTC, in satoshi, with the abandon-seed address as the draft's
    recipient. *)
Definition transaction : Transaction :=
  {| tx_family := "bitcoin"; amount := BigNumber.of_Z 150000000; recipient := "1abandon" |}.

Definition quote : SwapResult :=
  {| swapId := "swap-42"; res_provider := "changelly"; payinAddress := "bc1qpayin";
     binaryPayload := "0a0b"; signature := "3045" |}.

(** The rate-lock request of the runs below, given the nonce "nonce-1". *)
Definition request : SwapRequest :=
  {| req_provider := "changelly";
     amountFrom := apiAmount (amount transaction) BTC;
     from := "bitcoin"; to := "ethereum"; req_rateId := "rate-7";
     address := "0xfresh"; refundAddress := "bc1qfresh";
     deviceTransactionId := "nonce-1" |}.

(** The same for [tokenExchange]. *)
Definition tokenRequest : SwapRequest :=
  {| req_provider := "changelly";
     amountFrom := apiAmount (amount transaction) BTC;
     from := "bitcoin"; to := "ethereum/erc20/usd_tether__erc20_"; req_rateId := "rate-7";
     address := "0xfresh"; refundAddress := "bc1qfresh";
     deviceTransactionId := "nonce-1" |}.

Definition fees : BigNumber.t := BigNumber.of_Z 226.

Definition okStatus : TransactionStatus :=
  {| errors := {| err_recipient := None; err_amount := None |}; estimatedFees := fees |}.

Definition bridge : AccountBridge :=
  {| prepareTransaction := fun _ t => Normal t;
     getTransactionStatus := fun _ _ => Normal okStatus |}.

Definition accountCurrency (a : AccountLike) : Currency :=
  match a with
  | AccountOf a => currency a
  | TokenAccountOf token _ => token
  end.

Definition accountUnit (a : AccountLike) : Unit :=
  match a with
  | AccountOf a => account_unit a
  | TokenAccountOf _ units => hd BTC units
  end.

Definition mainAccount (a : AccountLike) (parent : option Account) : Account :=
  match a, parent with
  | AccountOf a, _ => a
  | _, Some p => p
  | _, None => btcAccount
  end.

Definition failure (what : string) : JsError := {| name := "TransportError"; message := what |}.

(** Every collaborator answers. *)
Definition happy : World :=
  {| getEnv := fun _ => false;
     mockInitSwap := fun _ _ _ => [];
     swap := fun c => match c with startNewTransaction => Normal "nonce-1" | _ => Normal "" end;
     network := fun _ => Normal (Some {| data := Some [quote] |});
     getAccountCurrency := accountCurrency;
     getAccountUnit := accountUnit;
     getMainAccount := mainAccount;
     getProviderNameAndSignature := fun _ =>
       Normal {| nameAndPubkey := BufferOf "changelly-key"; provider_signature := BufferOf "changelly-sig" |};
     getAccountBridge := fun _ => Normal bridge;
     getAbandonSeedAddress := fun _ => Normal "1abandon";
     signatureExport := fun b => Normal b;
     getSerializedAddressParameters := fun _ path _ => Normal {| addressParameters := BufferOf path |};
     getCurrencySwapConfig := fun c =>
       Normal {| config := BufferOf (id c); config_signature := BufferOf "config-sig" |} |}.

(** [w] with another HTTP client. *)
Definition with_network (w : World) (n : SwapRequest -> Completion (option Response)) : World :=
  {| getEnv := getEnv w; mockInitSwap := mockInitSwap w; swap := swap w; network := n;
     getAccountCurrency := getAccountCurrency w; getAccountUnit := getAccountUnit w;
     getMainAccount := getMainAccount w;
     getProviderNameAndSignature := getProviderNameAndSignature w;
     getAccountBridge := getAccountBridge w;
     getAbandonSeedAddress := getAbandonSeedAddress w;
     signatureExport := signatureExport w;
     getSerializedAddressParameters := getSerializedAddressParameters w;
     getCurrencySwapConfig := getCurrencySwapConfig w |}.

(** [w] with another account bridge. *)
Definition with_bridge (w : World) (b : AccountBridge) : World :=
  {| getEnv := getEnv w; mockInitSwap := mockInitSwap w; swap := swap w; network := network w;
     getAccountCurrency := getAccountCurrency w; getAccountUnit := getAccountUnit w;
     getMainAccount := getMainAccount w;
     getProviderNameAndSignature := getProviderNameAndSignature w;
     getAccountBridge := fun _ => Normal b;
     getAbandonSeedAddress := getAbandonSeedAddress w;
     signatureExport := signatureExport w;
     getSerializedAddressParameters := getSerializedAddressParameters w;
     getCurrencySwapConfig := getCurrencySwapConfig w |}.

(** The rate-lock call fails. *)
Definition apiDown : World := with_network happy (fun _ => Throw (failure "ECONNRESET")).

(** The rate-lock call resolves with a response that has no [data]. *)
Definition noData : World := with_network happy (fun _ => Normal (Some {| data := None |})).

(** The quote's pay-in address is the abandon-seed address. *)
Definition abandonQuote : World :=
  with_network happy (fun _ =>
    Normal (Some {| data := Some [ {| swapId := "swap-42"; res_provider := "changelly";
                                      payinAddress := "1abandon"; binaryPayload := "0a0b";
                                      signature := "3045" |} ] |})).

(** The user refuses the transaction on the device. *)
Definition deviceRefuses : World :=
  {| getEnv := getEnv happy; mockInitSwap := mockInitSwap happy;
     swap := fun c =>
       match c with
       | startNewTransaction => Normal "nonce-1"
       | signCoinTransaction => Throw (failure "denied by the user")
       | _ => Normal ""
       end;
     network := network happy;
     getAccountCurrency := getAccountCurrency happy; getAccountUnit := getAccountUnit happy;
     getMainAccount := getMainAccount happy;
     getProviderNameAndSignature := getProviderNameAndSignature happy;
     getAccountBridge := getAccountBridge happy;
     getAbandonSeedAddress := getAbandonSeedAddress happy;
     signatureExport := signatureExport happy;
     getSerializedAddressParameters := getSerializedAddressParameters happy;
     getCurrencySwapConfig := getCurrencySwapConfig happy |}.

Definition notEnoughBalance : JsError := {| name := "NotEnoughBalance"; message := "NotEnoughBalance" |}.

(** The bridge reports an amount error. *)
Definition amountRejected : World :=
  with_bridge happy
    {| prepareTransaction := fun _ t => Normal t;
       getTransactionStatus := fun _ _ =>
         Normal {| errors := {| err_recipient := None; err_amount := Some notEnoughBalance |};
                   estimatedFees := fees |} |}.

End Sample.

(** * Importing accounts (importAccountsMakeItems, importAccountsReduce)

    The first half of the file: the items offered when accounts are
    imported from another device, and their application to the list of
    accounts. *)

Module ImportAccounts.

Local Open Scope list_scope.

(** The keys of [itemModeDisplaySort]. *)
Inductive ImportItemMode : Type :=
| mode_create
| mode_update
| mode_id
| mode_unsupported.

Definition itemModeDisplaySort (m : ImportItemMode) : Z :=
  match m with
  | mode_create => 1
  | mode_update => 2
  | mode_id => 3
  | mode_unsupported => 4
  end.

(** An entry of [swapHistory]; the functions here hand histories to
    [isEqual] and [joinSwapHistories] and never look inside an entry, so
    an entry is kept as its text. *)
Definition SwapOperation := string.

(** The fields of an account this file reads, and [body] for all the
    others (a spread [{ ...existingAccount, name, swapHistory }] keeps it). *)
Record Account := {
  id : string;
  name : string;
  swapHistory : list SwapOperation;
  body : string }.

(** An element of [result.accounts], the raw account data. *)
Record AccountData := {
  data_id : string;
  data_name : string;
  data_body : string }.

(** The part of [Result] that is read. *)
Record Result := { accounts : list AccountData }.

Record ImportItem := {
  initialAccountId : string;
  account : Account;
  mode : ImportItemMode }.

(** lodash's [isEqual] on two histories: deep equality. *)
Definition isEqual (a b : list SwapOperation) : bool :=
  if list_eq_dec string_dec a b then true else false.

(** What the file imports and does not define; each call sits inside the
    [try] block and may throw. *)
Record Cross := {
  accountDataToAccount : AccountData -> Completion Account;
  checkAccountSupported : Account -> Completion (option JsError);
  findAccountMigration : Account -> list Account -> Completion (option Account);
  joinSwapHistories :
    list SwapOperation -> list SwapOperation -> Completion (list SwapOperation) }.

Definition andThen {A B} (c : Completion A) (k : A -> Completion B) : Completion B :=
  match c with
  | Normal a => k a
  | Throw e => Throw e
  end.

(** [accounts.find((a) => findAccountMigration(a, [account]))]: the
    predicate is called on the accounts in order until it is truthy. *)
Fixpoint find_migratable (x : Cross) (account : Account) (accounts : list Account)
  : Completion (option Account) :=
  match accounts with
  | [] => Normal None
  | a :: rest =>
      andThen (findAccountMigration x a [account]) (fun found =>
        match found with
        | Some _ => Normal (Some a)
        | None => find_migratable x account rest
        end)
  end.

(** The body of the [try] block, for an input without a previous item. *)
Definition buildItem (x : Cross) (accounts : list Account) (accInput : AccountData)
  : Completion ImportItem :=
  andThen (accountDataToAccount x accInput) (fun account =>
  andThen (checkAccountSupported x account) (fun error =>
  match error with
  | Some _ =>
      Normal {| initialAccountId := id account; account := account; mode := mode_unsupported |}
  | None =>
      andThen (find_migratable x account accounts) (fun migratableAccount =>
      match migratableAccount with
      | Some migratableAccount =>
          Normal {| initialAccountId := id migratableAccount; account := account;
                    mode := mode_update |}
      | None =>
          match find (fun a => id a =? data_id accInput) accounts with
          | Some existingAccount =>
              if (name existingAccount =? data_name accInput)
                 && isEqual (swapHistory existingAccount) (swapHistory account)
              then
                Normal {| initialAccountId := id existingAccount; account := existingAccount;
                          mode := mode_id |}
              else
                andThen (joinSwapHistories x (swapHistory existingAccount) (swapHistory account))
                  (fun joined =>
                     Normal {| initialAccountId := id existingAccount;
                               account := {| id := id existingAccount;
                                             name := data_name accInput;
                                             swapHistory := joined;
                                             body := body existingAccount |};
                               mode := mode_update |})
          | None =>
              Normal {| initialAccountId := id account; account := account;
                        mode := mode_create |}
          end
      end)
  end)).

(** [(items || []).find((item) => item.account.id === accInput.id)]. *)
Definition previousItem (items : option (list ImportItem)) (accInput : AccountData)
  : option ImportItem :=
  find (fun item => id (account item) =? data_id accInput)
       (match items with Some l => l | None => [] end).

(** The function mapped over [result.accounts]: the previous item when
    there is one, the new item otherwise, [None] (null) when the [try]
    block threw (the error is only logged). *)
Definition makeItem (x : Cross) (accounts : list Account) (items : option (list ImportItem))
  (accInput : AccountData) : option ImportItem :=
  match previousItem items accInput with
  | Some prevItem => Some prevItem
  | None =>
      match buildItem x accounts accInput with
      | Normal item => Some item
      | Throw _ => None
      end
  end.

(** [.filter(Boolean)]. *)
Fixpoint filterBoolean {A} (l : list (option A)) : list A :=
  match l with
  | [] => []
  | Some a :: l' => a :: filterBoolean l'
  | None :: l' => filterBoolean l'
  end.

(** [Array.prototype.sort(compare)], which is stable: an element goes
    before the first element it does not compare greater than. *)
Fixpoint insert {A} (compare : A -> A -> Z) (a : A) (sorted : list A) : list A :=
  match sorted with
  | [] => [a]
  | b :: rest =>
      if (compare a b <=? 0)%Z then a :: b :: rest else b :: insert compare a rest
  end.

Fixpoint sort {A} (compare : A -> A -> Z) (l : list A) : list A :=
  match l with
  | [] => []
  | a :: rest => insert compare a (sort compare rest)
  end.

(** [(a, b) => itemModeDisplaySort[a.mode] - itemModeDisplaySort[b.mode]]. *)
Definition compareModes (a b : ImportItem) : Z :=
  (itemModeDisplaySort (mode a) - itemModeDisplaySort (mode b))%Z.

Definition importAccountsMakeItems (x : Cross) (result : Result) (existing : list Account)
  (items : option (list ImportItem)) : list ImportItem :=
  sort compareModes (filterBoolean (map (makeItem x existing items) (accounts result))).

(** The array [accounts] of [importAccountsReduce]: its elements, and the
    property ["-1"] that [accounts[i] = account] sets when [indexOf]
    returned -1 (it is no element: length and iteration do not see it). *)
Record AccountsArray := {
  elements : list Account;
  minus_one : option Account }.

(** [accounts[accounts.indexOf(accounts.find((a) => a.id === initialAccountId))] = account]
    on the elements: the first account with that id is the one found, and
    its index the one [indexOf] returns; [None] when no account has the id. *)
Fixpoint replaceFound (initialAccountId : string) (account : Account) (accounts : list Account)
  : option (list Account) :=
  match accounts with
  | [] => None
  | a :: rest =>
      if id a =? initialAccountId then Some (account :: rest)
      else option_map (cons a) (replaceFound initialAccountId account rest)
  end.

(** The body of the [for] loop. *)
Definition applyItem (accounts : AccountsArray) (item : ImportItem) : AccountsArray :=
  match mode item with
  | mode_create =>
      {| elements := elements accounts ++ [account item]; minus_one := minus_one accounts |}
  | mode_update =>
      match replaceFound (initialAccountId item) (account item) (elements accounts) with
      | Some replaced => {| elements := replaced; minus_one := minus_one accounts |}
      | None => {| elements := elements accounts; minus_one := Some (account item) |}
      end
  | _ => accounts
  end.

(** [selectedAccounts.includes(item.account.id)]. *)
Definition isSelected (selectedAccounts : list string) (item : ImportItem) : bool :=
  existsb (String.eqb (id (account item))) selectedAccounts.

Definition importAccountsReduce (existingAccounts : list Account) (items : list ImportItem)
  (selectedAccounts : list string) : AccountsArray :=
  fold_left applyItem (filter (isSelected selectedAccounts) items)
    {| elements := existingAccounts; minus_one := None |}.

Definition isCreate (item : ImportItem) : bool :=
  match mode item with mode_create => true | _ => false end.

Definition isUpdate (item : ImportItem) : bool :=
  match mode item with mode_update => true | _ => false end.

(** ** Reading the items *)

(** The order in which the items are displayed. *)
Definition displayedBefore (a b : ImportItem) : Prop :=
  (itemModeDisplaySort (mode a) <= itemModeDisplaySort (mode b))%Z.

Definition orEmpty (items : option (list ImportItem)) : list ImportItem :=
  match items with Some l => l | None => [] end.

(** What a new item says about the accounts it was built against. *)
Definition wellTargeted (x : Cross) (existing : list Account) (inputs : list AccountData)
  (item : ImportItem) : Prop :=
  match mode item with
  | mode_create =>
      initialAccountId item = id (account item) /\
      exists accInput, In accInput inputs /\
        accountDataToAccount x accInput = Normal (account item) /\
        forall a, In a existing -> id a <> data_id accInput
  | mode_update => exists a, In a existing /\ initialAccountId item = id a
  | mode_id =>
      In (account item) existing /\ initialAccountId item = id (account item) /\
      exists accInput, In accInput inputs /\
        id (account item) = data_id accInput /\ name (account item) = data_name accInput
  | mode_unsupported => initialAccountId item = id (account item)
  end.

(** The selected items, in order. *)
Definition selectedItems (items : list ImportItem) (selectedAccounts : list string)
  : list ImportItem :=
  filter (isSelected selectedAccounts) items.

(** ** Sample data *)

Definition savings : Account :=
  {| id := "bitcoin:1"; name := "Bitcoin 1"; swapHistory := []; body := "xpub-1" |}.

Definition wallet : Account :=
  {| id := "ethereum:1"; name := "Ethereum 1"; swapHistory := ["swap-42"]; body := "0xabc" |}.

Definition renamedSavings : AccountData :=
  {| data_id := "bitcoin:1"; data_name := "Savings"; data_body := "xpub-1" |}.

Definition sameWallet : AccountData :=
  {| data_id := "ethereum:1"; data_name := "Ethereum 1"; data_body := "0xabc" |}.

Definition newRipple : AccountData :=
  {| data_id := "ripple:1"; data_name := "XRP 1"; data_body := "rXYZ" |}.

Definition unknownCoin : AccountData :=
  {| data_id := "unknown:1"; data_name := "?"; data_body := "" |}.

Definition unknownCurrency : JsError := Error "currency with id 'unknown' not found".

(** Converts every input but [unknownCoin], keeps ids and names, carries
    the history in the body's place, and knows no migration. *)
Definition cross : Cross :=
  {| accountDataToAccount := fun d =>
       if data_id d =? "unknown:1" then Throw unknownCurrency
       else Normal {| id := data_id d; name := data_name d;
                      swapHistory := if data_id d =? "ethereum:1" then ["swap-42"] else [];
                      body := data_body d |};
     checkAccountSupported := fun _ => Normal None;
     findAccountMigration := fun _ _ => Normal None;
     joinSwapHistories := fun a b => Normal (a ++ b) |}.

Definition scanned : Result :=
  {| accounts := [unknownCoin; sameWallet; renamedSavings; newRipple] |}.

Definition createRipple : ImportItem :=
  {| initialAccountId := "ripple:1";
     account := {| id := "ripple:1"; name := "XRP 1"; swapHistory := []; body := "rXYZ" |};
     mode := mode_create |}.

Definition renameSavings : ImportItem :=
  {| initialAccountId := "bitcoin:1";
     account := {| id := "bitcoin:1"; name := "Savings"; swapHistory := []; body := "xpub-1" |};
     mode := mode_update |}.

Definition keepWallet : ImportItem :=
  {| initialAccountId := "ethereum:1"; account := wallet; mode := mode_id |}.

(** An update of an account that is not there. *)
Definition renameLitecoin : ImportItem :=
  {| initialAccountId := "litecoin:1";
     account := {| id := "litecoin:2"; name := "LTC"; swapHistory := []; body := "ltub" |};
     mode := mode_update |}.

End ImportAccounts.

(** ** Symbolic execution of the flow

    A run of [initSwap] is decided by the answers of the collaborators and
    by the suspension at which the caller unsubscribes.  The tactics below
    take an equation [E : t = initSwap ...], split on the cancellation
    point, unfold the flow up to the next answer it waits for, split on that
    answer, and go on until [t] is an explicit list of actions. *)

(** The term the reduction of [t] is blocked on. *)
Ltac stuck t :=
  lazymatch t with
  | match ?x with _ => _ end =>
      lazymatch x with
      | context [match _ with _ => _ end] => stuck x
      | _ => constr:(x)
      end
  | ?f ?a =>
      lazymatch a with
      | context [match _ with _ => _ end] => stuck a
      | _ => stuck f
      end
  end.

Ltac reduce E :=
  lazy beta iota zeta delta
    [initSwap subscribe confirmSwap settle device addressParametersOf await bind ret throw
     return_ lift log get_unsubscribed set_unsubscribed teardown suspend try_catch o_next
     o_complete invariant first_result is_falsy res_data recipient_or_amount orb negb andb
     fst snd unsubscribed awaits trace Nat.eqb rev app] in E.

Ltac step E :=
  lazymatch type of E with
  | _ = ?rhs => let x := stuck rhs in destruct x eqn:?; reduce E
  end.

(** [k] is 0, 1, ..., n - 1, or at least n. *)
Ltac split_nat k n :=
  lazymatch n with
  | O => idtac
  | S ?n' => let k' := fresh "k" in destruct k as [|k']; [ | split_nat k' n' ]
  end.

(** The flow passes at most 14 suspension points. *)
Ltac split_cancel c :=
  let k := fresh "k" in destruct c as [k|]; [ split_nat k 14%nat | ].

Ltac run E := reduce E; repeat (step E).

(** From [H : getEnv w "MOCK" = false], every run of [initSwap w c ...] as
    an explicit trace [t]. *)
Ltac runs H w c t :=
  match goal with
  | |- context [initSwap w c ?ex ?rate ?tx ?dev] =>
      let E := fresh "E" in
      remember (initSwap w c ex rate tx dev) as t eqn:E;
      unfold initSwap in E; rewrite H in E;
      split_cancel c; run E; subst t
  end.

(** [In a t] on an explicit trace: the one element it can be. *)
Ltac pick H :=
  simpl in H;
  repeat (destruct H as [H|H]; [ try discriminate H | ]);
  try contradiction H.

(** Two occurrences of one call in a trace are the same call. *)
Ltac same_call H := injection H; clear H; intros; subst.

(** Closes the runs a boolean reading [H] of the trace excludes. *)
Ltac prune H := try (simpl in H; discriminate H).

(** Rewrites the goal with the answers recorded during the run. *)
Ltac recall :=
  repeat match goal with
         | H : ?x = _ |- context [?x] => rewrite H
         end.

(** ** Facts about bignumber.js division by a power of ten *)

Module BigNumberFacts.
Import BigNumber.

(** Rounding leaves an integer alone. *)
Lemma round_half_up_integer (q : Q) (k : Z) : q == inject_Z k -> round_half_up q = k.
Proof.
  destruct q as [n d]. unfold Qeq, round_half_up. cbn [Qnum Qden inject_Z]. intros H.
  rewrite Z.mul_1_r in H. subst n.
  generalize (Pos2Z.is_pos d). generalize (Z.pos d). intros z Hz.
  rewrite Z.sgn_mul, Z.abs_mul, (Z.sgn_pos z), (Z.abs_eq z) by lia.
  replace (2 * (Z.abs k * z) + z)%Z with (z + Z.abs k * (2 * z))%Z by lia.
  rewrite Z.div_add by lia.
  rewrite Z.div_small by lia.
  destruct k; simpl; lia.
Qed.

Lemma pow_ten (m : N) : pow (of_Z 10) m == inject_Z (10 ^ Z.of_N m).
Proof.
  unfold pow, of_Z. rewrite Qred_correct.
  symmetry. apply Zpower_Qpower. lia.
Qed.

Lemma scale_split (m : N) :
  (m <= DECIMAL_PLACES)%N ->
  scale = (10 ^ Z.of_N m * 10 ^ Z.of_N (DECIMAL_PLACES - m))%Z.
Proof.
  intros H. unfold scale. rewrite <- Z.pow_add_r by lia. f_equal. lia.
Qed.

(** Within [DECIMAL_PLACES] decimals the quotient of an integer by a
    power of ten is not rounded. *)
Lemma div_pow_ten_exact (a : Z) (m : N) :
  (m <= DECIMAL_PLACES)%N ->
  div (of_Z a) (pow (of_Z 10) m) == inject_Z a / inject_Z (10 ^ Z.of_N m).
Proof.
  intros H. unfold div. rewrite Qred_correct.
  assert (Hp : (0 < 10 ^ Z.of_N m)%Z) by (apply Z.pow_pos_nonneg; lia).
  assert (Hr : (0 < 10 ^ Z.of_N (DECIMAL_PLACES - m))%Z) by (apply Z.pow_pos_nonneg; lia).
  assert (Hnz : ~ inject_Z (10 ^ Z.of_N m) == 0).
  { unfold Qeq. simpl. lia. }
  rewrite (round_half_up_integer _ (a * 10 ^ Z.of_N (DECIMAL_PLACES - m))).
  - rewrite Qmake_Qdiv, Z2Pos.id by (rewrite (scale_split m H); lia).
    rewrite (scale_split m H), !inject_Z_mult. field.
    split; [ exact Hnz | unfold Qeq; simpl; lia ].
  - rewrite pow_ten, (scale_split m H), !inject_Z_mult. unfold of_Z. field. exact Hnz.
Qed.

End BigNumberFacts.

(** ** Lists of actions and events *)

Lemma In_existsb {A} (p : A -> bool) (a : A) (l : list A) :
  In a l -> p a = true -> existsb p l = true.
Proof. intros HI Hp. apply existsb_exists. exists a. split; assumption. Qed.

Lemma no_teardown (t : Trace) : ~ In Teardown t -> existsb is_teardown t = false.
Proof.
  intros H. induction t as [|a t IH]; [ reflexivity | ].
  simpl. destruct a; simpl; try (apply IH; intros Hin; apply H; right; exact Hin).
  exfalso. apply H. left. reflexivity.
Qed.

Lemma all_with_data (t : Trace) :
  (forall req r, In (NetworkCall req (Normal r)) t -> no_data r = false) ->
  forallb rate_lock_with_data t = true.
Proof.
  intros H. apply forallb_forall. intros a Ha.
  destruct a as [ | | req [r|e] | | | | | | ]; try reflexivity.
  simpl. rewrite (H req r Ha). reflexivity.
Qed.

(** What [terminal_is_last] computes. *)
Lemma terminal_is_last_sound (l : list SwapRequestEvent) :
  terminal_is_last l = true ->
  forall pre e post, l = (pre ++ e :: post)%list -> is_terminal e = true -> post = [].
Proof.
  induction l as [|x l IH]; intros H pre e post Hl He.
  - destruct pre; discriminate Hl.
  - destruct pre as [|y pre]; simpl in Hl; injection Hl as -> ->.
    + simpl in H. rewrite He in H. destruct post; [ reflexivity | discriminate H ].
    + simpl in H. destruct (is_terminal y).
      * destruct pre; discriminate H.
      * exact (IH H pre e post eq_refl He).
Qed.

(** ** The terminal event *)

(** C1, as stated, fails: when the rate-lock call resolves with a response
    that has no [data], an uncancelled run emits no event at all, so it has
    no terminal event. *)
Lemma C1_no_terminal_event_without_data :
  getEnv Sample.noData "MOCK" = false /\
  ~ In Teardown
      (initSwap Sample.noData None Sample.exchange Sample.exchangeRate Sample.transaction "nano") /\
  events (initSwap Sample.noData None Sample.exchange Sample.exchangeRate Sample.transaction "nano")
    = [] /\
  length (terminals
            (initSwap Sample.noData None Sample.exchange Sample.exchangeRate Sample.transaction
               "nano")) <> 1%nat.
Proof.
  split; [ reflexivity | split; [ | split; [ reflexivity | discriminate ] ] ].
  intros H. vm_compute in H. pick H.
Qed.

(** C1 (amended): every run emits at most one terminal event
    ([init-swap-result] or [init-swap-error]) and no event after it; a run
    during which the caller does not unsubscribe, and whose rate-lock call
    does not resolve with a falsy or data-less response, emits exactly
    one. *)
Theorem C1_terminal_event w c ex rate tx dev :
  getEnv w "MOCK" = false ->
  (length (terminals (initSwap w c ex rate tx dev)) <= 1)%nat /\
  (forall pre e post,
     events (initSwap w c ex rate tx dev) = (pre ++ e :: post)%list ->
     is_terminal e = true -> post = []) /\
  (~ In Teardown (initSwap w c ex rate tx dev) ->
   (forall req r, In (NetworkCall req (Normal r)) (initSwap w c ex rate tx dev) ->
                  no_data r = false) ->
   length (terminals (initSwap w c ex rate tx dev)) = 1%nat).
Proof.
  intros HM.
  enough (H : (length (terminals (initSwap w c ex rate tx dev)) <= 1)%nat /\
              terminal_is_last (events (initSwap w c ex rate tx dev)) = true /\
              (existsb is_teardown (initSwap w c ex rate tx dev) = false ->
               forallb rate_lock_with_data (initSwap w c ex rate tx dev) = true ->
               length (terminals (initSwap w c ex rate tx dev)) = 1%nat)).
  { destruct H as (H1 & H2 & H3). split; [ exact H1 | split ].
    - apply terminal_is_last_sound, H2.
    - intros HT HD. apply H3; [ apply no_teardown, HT | apply all_with_data, HD ]. }
  runs HM w c t.
  all: split; [ simpl; lia | split; [ reflexivity | ] ].
  all: intros HT HD; try reflexivity; prune HT.
  all: revert HD; cbv [forallb rate_lock_with_data no_data is_falsy res_data orb negb andb];
    subst; recall; discriminate.
Qed.

Lemma C1_terminal_event_witness :
  length (terminals
            (initSwap Sample.happy None Sample.exchange Sample.exchangeRate Sample.transaction
               "nano")) = 1%nat.
Proof.
  destruct (C1_terminal_event Sample.happy None Sample.exchange Sample.exchangeRate
              Sample.transaction "nano" eq_refl) as (_ & _ & H).
  apply H.
  - intros HT. vm_compute in HT. pick HT.
  - intros req r HI. vm_compute in HI. pick HI. same_call HI. reflexivity.
Defined.

(** ** Cancellation *)


(** Where the flag is read: once the caller has unsubscribed while the
    flow was suspended, the flow calls [o.next] with no
    [init-swap-requested] and no [init-swap-result]; a call of [o.next]
    made after the teardown carries an [init-swap-error]. *)
Theorem only_errors_after_teardown w c ex rate tx dev e :
  getEnv w "MOCK" = false ->
  In e (events (after_teardown (initSwap w c ex rate tx dev))) ->
  exists err, e = init_swap_error err.
Proof.
  intros HM. runs HM w c t.
  all: simpl; intros HI; repeat (destruct HI as [HI|HI]); try contradiction HI.
  all: subst e; eexists; reflexivity.
Qed.

Lemma only_errors_after_teardown_witness :
  exists err, init_swap_error SwapGenericAPIError = init_swap_error err.
Proof.
  apply (only_errors_after_teardown Sample.apiDown (Some 1%nat) Sample.exchange
           Sample.exchangeRate Sample.transaction "nano").
  - reflexivity.
  - left. reflexivity.
Defined.

(** ** The rate-lock call *)

(** C3, as stated, fails: the rate-lock request carries the nonce of the
    device, so [startNewTransaction] has been issued, inside [withDevice],
    before the call that fails. *)
Lemma C3_device_used_before_rate_lock :
  existsb rate_lock_rejected
    (initSwap Sample.apiDown None Sample.exchange Sample.exchangeRate Sample.transaction "nano")
  = true /\
  deviceCommands
    (initSwap Sample.apiDown None Sample.exchange Sample.exchangeRate Sample.transaction "nano")
  = [startNewTransaction] /\
  hd_error
    (initSwap Sample.apiDown None Sample.exchange Sample.exchangeRate Sample.transaction "nano")
  = Some (WithDevice "").
Proof. repeat split. Qed.

(** C3 (amended): if the rate-lock call fails, the only event of the run
    is one [init-swap-error] carrying [SwapGenericAPIError], and the only
    device command of the run is the [startNewTransaction] issued before
    the request, whose reply is the request's [deviceTransactionId]. *)
Theorem C3_rate_lock_failure w c ex rate tx dev req e :
  getEnv w "MOCK" = false ->
  In (NetworkCall req (Throw e)) (initSwap w c ex rate tx dev) ->
  events (initSwap w c ex rate tx dev) = [init_swap_error SwapGenericAPIError] /\
  deviceCommands (initSwap w c ex rate tx dev) = [startNewTransaction] /\
  In (DeviceCall startNewTransaction (Normal (deviceTransactionId req)))
     (initSwap w c ex rate tx dev).
Proof.
  intros HM HI.
  pose proof (In_existsb rate_lock_rejected _ _ HI eq_refl) as Hp.
  revert HI.
  runs HM w c t.
  all: prune Hp.
  all: intros HI; pick HI.
  all: same_call HI; simpl; auto.
Qed.

Lemma C3_rate_lock_failure_witness :
  events (initSwap Sample.apiDown None Sample.exchange Sample.exchangeRate Sample.transaction "nano")
  = [init_swap_error SwapGenericAPIError] /\
  deviceCommands
    (initSwap Sample.apiDown None Sample.exchange Sample.exchangeRate Sample.transaction "nano")
  = [startNewTransaction] /\
  In (DeviceCall startNewTransaction (Normal "nonce-1"))
     (initSwap Sample.apiDown None Sample.exchange Sample.exchangeRate Sample.transaction "nano").
Proof.
  apply (C3_rate_lock_failure Sample.apiDown None Sample.exchange Sample.exchangeRate
           Sample.transaction "nano"
           Sample.request
           (Sample.failure "ECONNRESET")).
  - reflexivity.
  - right. right. left. reflexivity.
Defined.

(** C10: if the rate-lock call resolves with a falsy response or a
    response without [data], the run emits no event, and the last thing
    it does is [o.complete()]. *)
Theorem C10_no_data_no_event w c ex rate tx dev req r :
  getEnv w "MOCK" = false ->
  In (NetworkCall req (Normal r)) (initSwap w c ex rate tx dev) ->
  no_data r = true ->
  events (initSwap w c ex rate tx dev) = [] /\
  last (initSwap w c ex rate tx dev) Teardown = Complete.
Proof.
  intros HM HI Hn.
  pose proof (In_existsb rate_lock_resolved _ _ HI eq_refl) as Hp.
  revert HI.
  runs HM w c t.
  all: prune Hp.
  all: intros HI; try (split; reflexivity).
  all: pick HI.
  all: same_call HI; revert Hn; cbv [no_data is_falsy res_data orb]; recall; discriminate.
Qed.

Lemma C10_no_data_no_event_witness :
  events (initSwap Sample.noData None Sample.exchange Sample.exchangeRate Sample.transaction "nano")
  = [] /\
  last (initSwap Sample.noData None Sample.exchange Sample.exchangeRate Sample.transaction "nano")
       Teardown = Complete.
Proof.
  apply (C10_no_data_no_event Sample.noData None Sample.exchange Sample.exchangeRate
           Sample.transaction "nano"
           Sample.request
           (Some {| data := None |})).
  - reflexivity.
  - right. right. left. reflexivity.
  - reflexivity.
Defined.

(** ** Checks between the quote and the device *)

(** C4, as stated, fails: the currency types are checked after the
    rate-lock call, hence after the device has answered
    [startNewTransaction]; the payout currency here is a token. *)
Lemma C4_device_used_before_currency_check :
  type (getAccountCurrency Sample.happy (toAccount Sample.tokenExchange)) <> "CryptoCurrency" /\
  events (initSwap Sample.happy None Sample.tokenExchange Sample.exchangeRate Sample.transaction
            "nano")
  = [init_swap_error nonCryptoCurrencies] /\
  deviceCommands
    (initSwap Sample.happy None Sample.tokenExchange Sample.exchangeRate Sample.transaction "nano")
  = [startNewTransaction].
Proof. split; [ discriminate | split; reflexivity ]. Qed.

(** C4 (amended): if the payout or the refund currency is not of type
    [CryptoCurrency], the run makes no bridge call and its only device
    command is the initial [startNewTransaction]; when moreover the caller
    does not unsubscribe, the rate-lock call returns a quote and the
    quote's provider is known, the run ends with one [init-swap-error]
    carrying [Error("How do I handle non CryptoCurrencies")]. *)
Theorem C4_non_native_currency w c ex rate tx dev :
  getEnv w "MOCK" = false ->
  type (getAccountCurrency w (toAccount ex)) <> "CryptoCurrency" \/
  type (getAccountCurrency w (fromAccount ex)) <> "CryptoCurrency" ->
  bridgeCalls (initSwap w c ex rate tx dev) = [] /\
  deviceCommands (initSwap w c ex rate tx dev) = [startNewTransaction] /\
  (~ In Teardown (initSwap w c ex rate tx dev) ->
   forall req q rest p,
     In (NetworkCall req (Normal (Some {| data := Some (q :: rest) |})))
        (initSwap w c ex rate tx dev) ->
     getProviderNameAndSignature w (res_provider q) = Normal p ->
     events (initSwap w c ex rate tx dev) = [init_swap_error nonCryptoCurrencies]).
Proof.
  intros HM HC.
  assert (HC' : (type (getAccountCurrency w (toAccount ex)) =? "CryptoCurrency") = false \/
                (type (getAccountCurrency w (fromAccount ex)) =? "CryptoCurrency") = false)
    by (destruct HC as [HC|HC]; [ left | right ]; apply String.eqb_neq, HC).
  clear HC.
  enough (H : bridgeCalls (initSwap w c ex rate tx dev) = [] /\
              deviceCommands (initSwap w c ex rate tx dev) = [startNewTransaction] /\
              (existsb is_teardown (initSwap w c ex rate tx dev) = false ->
               forall req q rest p,
                 In (NetworkCall req (Normal (Some {| data := Some (q :: rest) |})))
                    (initSwap w c ex rate tx dev) ->
                 getProviderNameAndSignature w (res_provider q) = Normal p ->
                 events (initSwap w c ex rate tx dev) = [init_swap_error nonCryptoCurrencies])).
  { destruct H as (H1 & H2 & H3). repeat split; trivial.
    intros HT. apply H3, no_teardown, HT. }
  runs HM w c t.
  all: try (exfalso; destruct HC' as [HC'|HC']; congruence).
  all: split; [ reflexivity | split; [ reflexivity | ] ].
  all: intros HT req q rest p HI Hp; try reflexivity; prune HT.
  all: pick HI.
  all: same_call HI; simpl in *; congruence.
Qed.

Lemma C4_non_native_currency_witness :
  events (initSwap Sample.happy None Sample.tokenExchange Sample.exchangeRate Sample.transaction
            "nano")
  = [init_swap_error nonCryptoCurrencies].
Proof.
  destruct (C4_non_native_currency Sample.happy None Sample.tokenExchange Sample.exchangeRate
              Sample.transaction "nano" eq_refl) as (_ & _ & H).
  - left. discriminate.
  - apply (H (fun HT => ltac:(vm_compute in HT; pick HT))
             Sample.tokenRequest
             Sample.quote []
             {| nameAndPubkey := BufferOf "changelly-key";
                provider_signature := BufferOf "changelly-sig" |}).
    + right. right. left. reflexivity.
    + reflexivity.
Defined.

(** C5, as stated, fails: the quote's pay-in address is the abandon-seed
    address of the refund currency, the invariant stops the flow, and the
    device has already answered [startNewTransaction]. *)
Lemma C5_device_used_before_invariant :
  recipient (updateTransaction Sample.transaction {| patch_recipient := "1abandon" |})
  = "1abandon" /\
  getAbandonSeedAddress Sample.abandonQuote "bitcoin" = Normal "1abandon" /\
  events (initSwap Sample.abandonQuote None Sample.exchange Sample.exchangeRate
            Sample.transaction "nano")
  = [init_swap_error (InvariantViolation abandonseedRecipient)] /\
  deviceCommands
    (initSwap Sample.abandonQuote None Sample.exchange Sample.exchangeRate Sample.transaction
       "nano")
  = [startNewTransaction].
Proof. repeat split. Qed.

(** C5 (amended): when the flow reaches the recipient substitution (the
    caller has not unsubscribed, the rate-lock call returned a quote of a
    known provider, both currencies are of type [CryptoCurrency], the
    account has a bridge) and the substituted recipient equals the
    abandon-seed address of the refund currency, the run ends with one
    [init-swap-error] carrying the invariant violation; it makes no
    bridge call, and its only device command is the initial
    [startNewTransaction]. *)
Theorem C5_abandon_seed_recipient w c ex rate tx dev req q rest p b sentinel :
  getEnv w "MOCK" = false ->
  ~ In Teardown (initSwap w c ex rate tx dev) ->
  In (NetworkCall req (Normal (Some {| data := Some (q :: rest) |})))
     (initSwap w c ex rate tx dev) ->
  getProviderNameAndSignature w (res_provider q) = Normal p ->
  type (getAccountCurrency w (toAccount ex)) = "CryptoCurrency" ->
  type (getAccountCurrency w (fromAccount ex)) = "CryptoCurrency" ->
  getAccountBridge w (getMainAccount w (fromAccount ex) (fromParentAccount ex)) = Normal b ->
  getAbandonSeedAddress w (id (getAccountCurrency w (fromAccount ex))) = Normal sentinel ->
  recipient (updateTransaction tx {| patch_recipient := payinAddress q |}) = sentinel ->
  events (initSwap w c ex rate tx dev) =
    [init_swap_error (InvariantViolation abandonseedRecipient)] /\
  bridgeCalls (initSwap w c ex rate tx dev) = [] /\
  deviceCommands (initSwap w c ex rate tx dev) = [startNewTransaction].
Proof.
  intros HM HT HI Hp Hto Hfrom Hb Hs Hr.
  apply no_teardown in HT.
  apply String.eqb_eq in Hto, Hfrom.
  revert HT HI.
  runs HM w c t.
  all: intros HT HI; prune HT.
  all: pick HI.
  all: same_call HI; simpl in *; try congruence.
  all: try (repeat split; reflexivity).
  all: exfalso;
    match goal with
    | H : (_ =? _) = false |- _ => apply String.eqb_neq in H; apply H; congruence
    end.
Qed.

Lemma C5_abandon_seed_recipient_witness :
  events (initSwap Sample.abandonQuote None Sample.exchange Sample.exchangeRate
            Sample.transaction "nano")
  = [init_swap_error (InvariantViolation abandonseedRecipient)] /\
  bridgeCalls
    (initSwap Sample.abandonQuote None Sample.exchange Sample.exchangeRate Sample.transaction
       "nano") = [] /\
  deviceCommands
    (initSwap Sample.abandonQuote None Sample.exchange Sample.exchangeRate Sample.transaction
       "nano") = [startNewTransaction].
Proof.
  apply (C5_abandon_seed_recipient Sample.abandonQuote None Sample.exchange Sample.exchangeRate
           Sample.transaction "nano"
           Sample.request
           {| swapId := "swap-42"; res_provider := "changelly"; payinAddress := "1abandon";
              binaryPayload := "0a0b"; signature := "3045" |}
           []
           {| nameAndPubkey := BufferOf "changelly-key";
              provider_signature := BufferOf "changelly-sig" |}
           Sample.bridge "1abandon").
  - reflexivity.
  - intros HT. vm_compute in HT. pick HT.
  - right. right. left. reflexivity.
  - reflexivity.
  - reflexivity.
  - reflexivity.
  - reflexivity.
  - reflexivity.
  - reflexivity.
Defined.

(** C6, as stated, fails: the bridge reports an amount error, the flow
    stops with it, and the device has already answered
    [startNewTransaction]. *)
Lemma C6_device_used_before_validation :
  events (initSwap Sample.amountRejected None Sample.exchange Sample.exchangeRate
            Sample.transaction "nano")
  = [init_swap_error Sample.notEnoughBalance] /\
  deviceCommands
    (initSwap Sample.amountRejected None Sample.exchange Sample.exchangeRate Sample.transaction
       "nano")
  = [startNewTransaction].
Proof. split; reflexivity. Qed.

(** C6 (amended): if the status returned by the bridge has a recipient
    error or an amount error, the run ends with one [init-swap-error]
    carrying the recipient error when there is one and the amount error
    otherwise; its only device command is the [startNewTransaction] issued
    at the start. *)
Theorem C6_validation_error w c ex rate tx dev acc tx' st e :
  getEnv w "MOCK" = false ->
  In (GetTransactionStatusCall acc tx' (Normal st)) (initSwap w c ex rate tx dev) ->
  err_recipient (errors st) = Some e \/
  (err_recipient (errors st) = None /\ err_amount (errors st) = Some e) ->
  events (initSwap w c ex rate tx dev) = [init_swap_error e] /\
  deviceCommands (initSwap w c ex rate tx dev) = [startNewTransaction].
Proof.
  intros HM HI He.
  pose proof (In_existsb status_received _ _ HI eq_refl) as Hp.
  revert HI.
  runs HM w c t.
  all: prune Hp.
  all: intros HI; pick HI.
  all: same_call HI; simpl; destruct He as [He|[He1 He2]]; split; try reflexivity; congruence.
Qed.

Lemma C6_validation_error_witness :
  events (initSwap Sample.amountRejected None Sample.exchange Sample.exchangeRate
            Sample.transaction "nano")
  = [init_swap_error Sample.notEnoughBalance] /\
  deviceCommands
    (initSwap Sample.amountRejected None Sample.exchange Sample.exchangeRate Sample.transaction
       "nano")
  = [startNewTransaction].
Proof.
  apply (C6_validation_error Sample.amountRejected None Sample.exchange Sample.exchangeRate
           Sample.transaction "nano" Sample.btcAccount
           (updateTransaction Sample.transaction {| patch_recipient := "bc1qpayin" |})
           {| errors := {| err_recipient := None; err_amount := Some Sample.notEnoughBalance |};
              estimatedFees := Sample.fees |}).
  - reflexivity.
  - right. right. right. right. left. reflexivity.
  - right. split; reflexivity.
Defined.

(** ** The rate-lock request *)

(** What the flow sends: the converted amount, and the nonce the device
    returned for this run. *)
Lemma rate_lock_request w c ex rate tx dev req r :
  getEnv w "MOCK" = false ->
  In (NetworkCall req r) (initSwap w c ex rate tx dev) ->
  amountFrom req = apiAmount (amount tx) (getAccountUnit w (fromAccount ex)) /\
  In (DeviceCall startNewTransaction (Normal (deviceTransactionId req)))
     (initSwap w c ex rate tx dev).
Proof.
  intros HM HI.
  assert (Hp : existsb rate_lock_resolved (initSwap w c ex rate tx dev)
               || existsb rate_lock_rejected (initSwap w c ex rate tx dev) = true).
  { destruct r.
    - rewrite (In_existsb rate_lock_resolved _ _ HI eq_refl). reflexivity.
    - rewrite (In_existsb rate_lock_rejected _ _ HI eq_refl). apply orb_true_r. }
  revert HI.
  runs HM w c t.
  all: prune Hp.
  all: intros HI; pick HI.
  all: same_call HI; split; [ reflexivity | simpl; auto ].
Qed.

(** C7, as stated, fails: bignumber.js rounds a quotient to 20 decimals,
    so one smallest unit of a currency with 21 decimals is sent as 0. *)
Lemma C7_rounded_beyond_twenty_decimals :
  apiAmount (BigNumber.of_Z 1) {| code := "yocto"; magnitude := 21 |} = 0 /\
  ~ apiAmount (BigNumber.of_Z 1) {| code := "yocto"; magnitude := 21 |}
    == inject_Z 1 / inject_Z (10 ^ 21).
Proof.
  split.
  - vm_compute. reflexivity.
  - vm_compute. intros H. discriminate H.
Qed.

(** C7 (amended): for every integer amount (a number of smallest units)
    and every unit magnitude up to 20, the [DECIMAL_PLACES] of
    bignumber.js, the amount sent in the rate-lock request equals
    amount / 10^magnitude exactly; in particular 150000000 with
    magnitude 8 is sent as 3/2. *)
Theorem C7_api_amount_exact w c ex rate tx dev a req r :
  getEnv w "MOCK" = false ->
  amount tx = BigNumber.of_Z a ->
  (magnitude (getAccountUnit w (fromAccount ex)) <= BigNumber.DECIMAL_PLACES)%N ->
  In (NetworkCall req r) (initSwap w c ex rate tx dev) ->
  amountFrom req ==
    inject_Z a / inject_Z (10 ^ Z.of_N (magnitude (getAccountUnit w (fromAccount ex)))) /\
  (a = 150000000%Z -> magnitude (getAccountUnit w (fromAccount ex)) = 8%N ->
   amountFrom req = 3 # 2).
Proof.
  intros HM Ha Hm HI.
  destruct (rate_lock_request w c ex rate tx dev req r HM HI) as [Hreq _].
  rewrite Hreq, Ha. unfold apiAmount. split.
  - apply BigNumberFacts.div_pow_ten_exact, Hm.
  - intros -> ->. vm_compute. reflexivity.
Qed.

Lemma C7_api_amount_exact_witness : amountFrom Sample.request = 3 # 2.
Proof.
  refine (proj2 (C7_api_amount_exact Sample.happy None Sample.exchange Sample.exchangeRate
                   Sample.transaction "nano" 150000000 Sample.request
                   (Normal (Some {| data := Some [Sample.quote] |})) eq_refl eq_refl _ _)
                eq_refl eq_refl).
  - discriminate.
  - vm_compute. right. right. left. reflexivity.
Defined.

(** ** The recipient of the draft *)

(** C8: the flow replaces the recipient of the draft by the [payinAddress]
    of the quote (the first element of the response's [data]), whatever
    the original recipient was.  Three facts about every run: (a) the run
    is the same, action for action, whatever the original recipient of
    the draft: the original recipient is read nowhere; (b) a draft handed
    to [prepareTransaction], the first use of the draft after the
    substitution, is the caller's draft updated with the [payinAddress]
    of the quote, and that address is its recipient; (c) the substitution
    is reached and its result used whenever the flow gets that far (the
    caller has not unsubscribed, the rate-lock call returned a quote of a
    known provider, both currencies are of type [CryptoCurrency], the
    account has a bridge, the new recipient is not the abandon-seed
    address): [prepareTransaction] is then called on the refund account
    with the substituted draft, whatever the original recipient. *)
Theorem C8_recipient_overwritten w c ex rate tx dev :
  getEnv w "MOCK" = false ->
  (forall original,
     initSwap w c ex rate
       {| tx_family := tx_family tx; amount := amount tx; recipient := original |} dev
     = initSwap w c ex rate tx dev) /\
  (forall acc tx' r,
     In (PrepareTransactionCall acc tx' r) (initSwap w c ex rate tx dev) ->
     exists req q rest,
       In (NetworkCall req (Normal (Some {| data := Some (q :: rest) |})))
          (initSwap w c ex rate tx dev) /\
       tx' = updateTransaction tx {| patch_recipient := payinAddress q |} /\
       recipient tx' = payinAddress q) /\
  (forall req q rest p b sentinel original,
     ~ In Teardown (initSwap w c ex rate tx dev) ->
     In (NetworkCall req (Normal (Some {| data := Some (q :: rest) |})))
        (initSwap w c ex rate tx dev) ->
     getProviderNameAndSignature w (res_provider q) = Normal p ->
     type (getAccountCurrency w (toAccount ex)) = "CryptoCurrency" ->
     type (getAccountCurrency w (fromAccount ex)) = "CryptoCurrency" ->
     getAccountBridge w (getMainAccount w (fromAccount ex) (fromParentAccount ex)) = Normal b ->
     getAbandonSeedAddress w (id (getAccountCurrency w (fromAccount ex))) = Normal sentinel ->
     payinAddress q <> sentinel ->
     exists tx1,
       recipient tx1 = payinAddress q /\
       tx_family tx1 = tx_family tx /\
       amount tx1 = amount tx /\
       In (PrepareTransactionCall (getMainAccount w (fromAccount ex) (fromParentAccount ex))
             tx1 (prepareTransaction b
                    (getMainAccount w (fromAccount ex) (fromParentAccount ex)) tx1))
          (initSwap w c ex rate
             {| tx_family := tx_family tx; amount := amount tx; recipient := original |} dev)).
Proof.
  intros HM.
  assert (Hsame : forall original,
             initSwap w c ex rate
               {| tx_family := tx_family tx; amount := amount tx; recipient := original |} dev
             = initSwap w c ex rate tx dev) by (intros original; reflexivity).
  split; [ exact Hsame | ].
  enough (H : (forall acc tx' r,
     In (PrepareTransactionCall acc tx' r) (initSwap w c ex rate tx dev) ->
     exists req q rest,
       In (NetworkCall req (Normal (Some {| data := Some (q :: rest) |})))
          (initSwap w c ex rate tx dev) /\
       tx' = updateTransaction tx {| patch_recipient := payinAddress q |} /\
       recipient tx' = payinAddress q) /\
  (forall req q rest p b sentinel,
     existsb is_teardown (initSwap w c ex rate tx dev) = false ->
     In (NetworkCall req (Normal (Some {| data := Some (q :: rest) |})))
        (initSwap w c ex rate tx dev) ->
     getProviderNameAndSignature w (res_provider q) = Normal p ->
     (type (getAccountCurrency w (toAccount ex)) =? "CryptoCurrency") = true ->
     (type (getAccountCurrency w (fromAccount ex)) =? "CryptoCurrency") = true ->
     getAccountBridge w (getMainAccount w (fromAccount ex) (fromParentAccount ex)) = Normal b ->
     getAbandonSeedAddress w (id (getAccountCurrency w (fromAccount ex))) = Normal sentinel ->
     (payinAddress q =? sentinel) = false ->
     In (PrepareTransactionCall (getMainAccount w (fromAccount ex) (fromParentAccount ex))
           (updateTransaction tx {| patch_recipient := payinAddress q |})
           (prepareTransaction b
              (getMainAccount w (fromAccount ex) (fromParentAccount ex))
              (updateTransaction tx {| patch_recipient := payinAddress q |})))
        (initSwap w c ex rate tx dev))).
  { destruct H as [H1 H2]. split; [ exact H1 | ].
    intros req q rest p b sentinel original HT HI Hp Hto Hfrom Hb Hs Hr.
    exists (updateTransaction tx {| patch_recipient := payinAddress q |}).
    rewrite Hsame.
    repeat split.
    apply (H2 req q rest p b sentinel); auto.
    - apply no_teardown, HT.
    - apply String.eqb_eq, Hto.
    - apply String.eqb_eq, Hfrom.
    - apply String.eqb_neq, Hr. }
  clear Hsame.
  runs HM w c t.
  all: split;
    [ intros acc' tx' r' HI;
      try (exfalso; exact (diff_false_true (In_existsb is_prepare _ _ HI eq_refl)));
      pick HI; same_call HI;
      match goal with
      | H : data ?r = Some (?q :: ?rest) |- _ =>
          destruct r as [d]; simpl in H; subst d;
          do 3 eexists; split;
          [ simpl; right; right; left; reflexivity | split; reflexivity ]
      end
    | intros req' q' rest' p' b' sentinel' HT HI Hp Hto Hfrom Hb Hs Hr;
      prune HT; pick HI; same_call HI; simpl in *; try congruence;
      repeat match goal with
             | H : Some _ = Some _ |- _ => injection H; clear H; intros; subst
             | H : Normal _ = Normal _ |- _ => injection H; clear H; intros; subst
             end;
      try congruence;
      try match goal with
          | H : prepareTransaction _ _ _ = _ |- _ => rewrite H
          end;
      repeat (first [ left; reflexivity | right ]) ].
Qed.

Lemma C8_recipient_overwritten_witness :
  exists tx1,
    recipient tx1 = "bc1qpayin" /\
    tx_family tx1 = "bitcoin" /\
    amount tx1 = amount Sample.transaction /\
    In (PrepareTransactionCall Sample.btcAccount tx1 (Normal tx1))
       (initSwap Sample.happy None Sample.exchange Sample.exchangeRate
          {| tx_family := "bitcoin"; amount := amount Sample.transaction;
             recipient := "somewhere else" |} "nano").
Proof.
  refine (proj2 (proj2 (C8_recipient_overwritten Sample.happy None Sample.exchange
                          Sample.exchangeRate Sample.transaction "nano" eq_refl))
            Sample.request Sample.quote []
            {| nameAndPubkey := BufferOf "changelly-key";
               provider_signature := BufferOf "changelly-sig" |}
            Sample.bridge "1abandon" "somewhere else" _ _ eq_refl eq_refl eq_refl eq_refl
            eq_refl _).
  - intros HT. vm_compute in HT. pick HT.
  - vm_compute. right. right. left. reflexivity.
  - discriminate.
Defined.

(** ** The device session *)

(** C9, as stated, fails: in a successful run [setPartnerKey] is the second
    entry of the timeline and [init-swap-requested] the seventh, after
    [checkPayoutAddress]. *)
Lemma C9_requested_after_partner_checks :
  position "setPartnerKey"
    (timeline (initSwap Sample.happy None Sample.exchange Sample.exchangeRate Sample.transaction
                 "nano")) = Some 1%nat /\
  position "checkPayoutAddress"
    (timeline (initSwap Sample.happy None Sample.exchange Sample.exchangeRate Sample.transaction
                 "nano")) = Some 5%nat /\
  position "init-swap-requested"
    (timeline (initSwap Sample.happy None Sample.exchange Sample.exchangeRate Sample.transaction
                 "nano")) = Some 6%nat.
Proof. repeat split. Qed.

(** C9 (amended): in every run that emits [init-swap-result], the device
    commands and the events come in this order, each once:
    [startNewTransaction], [setPartnerKey], [checkPartner],
    [processTransaction], [checkTransactionSignature],
    [checkPayoutAddress], then the event [init-swap-requested], then
    [checkRefundAddress], [signCoinTransaction], then the event
    [init-swap-result]; and every device command was answered before the
    next one was issued (none was rejected). *)
Theorem C9_requested_between_device_steps w c ex rate tx dev tx' sid :
  getEnv w "MOCK" = false ->
  In (Next (init_swap_result tx' sid)) (initSwap w c ex rate tx dev) ->
  timeline (initSwap w c ex rate tx dev) =
    ["startNewTransaction"; "setPartnerKey"; "checkPartner"; "processTransaction";
     "checkTransactionSignature"; "checkPayoutAddress"; "init-swap-requested";
     "checkRefundAddress"; "signCoinTransaction"; "init-swap-result"] /\
  existsb device_rejected (initSwap w c ex rate tx dev) = false.
Proof.
  intros HM HI.
  pose proof (In_existsb is_result _ _ HI eq_refl) as Hp.
  clear HI.
  runs HM w c t.
  all: prune Hp.
  all: split; reflexivity.
Qed.

Lemma C9_requested_between_device_steps_witness :
  timeline (initSwap Sample.happy None Sample.exchange Sample.exchangeRate Sample.transaction
              "nano") =
    ["startNewTransaction"; "setPartnerKey"; "checkPartner"; "processTransaction";
     "checkTransactionSignature"; "checkPayoutAddress"; "init-swap-requested";
     "checkRefundAddress"; "signCoinTransaction"; "init-swap-result"] /\
  existsb device_rejected
    (initSwap Sample.happy None Sample.exchange Sample.exchangeRate Sample.transaction "nano")
  = false.
Proof.
  apply (C9_requested_between_device_steps Sample.happy None Sample.exchange
           Sample.exchangeRate Sample.transaction "nano"
           (updateTransaction Sample.transaction {| patch_recipient := "bc1qpayin" |})
           "swap-42").
  - reflexivity.
  - vm_compute. do 15 right. left. reflexivity.
Defined.

(** ** Further properties of the flow *)

(** The nonce is bound to the rate lock: the [deviceTransactionId] of
    every rate-lock request is the reply of this run's
    [startNewTransaction]. *)
Theorem nonce_binds_rate_lock w c ex rate tx dev req r :
  getEnv w "MOCK" = false ->
  In (NetworkCall req r) (initSwap w c ex rate tx dev) ->
  In (DeviceCall startNewTransaction (Normal (deviceTransactionId req)))
     (initSwap w c ex rate tx dev).
Proof.
  intros HM HI. exact (proj2 (rate_lock_request w c ex rate tx dev req r HM HI)).
Qed.

Lemma nonce_binds_rate_lock_witness :
  In (DeviceCall startNewTransaction (Normal "nonce-1"))
     (initSwap Sample.happy None Sample.exchange Sample.exchangeRate Sample.transaction "nano").
Proof.
  apply (nonce_binds_rate_lock Sample.happy None Sample.exchange Sample.exchangeRate
           Sample.transaction "nano" Sample.request
           (Normal (Some {| data := Some [Sample.quote] |}))).
  - reflexivity.
  - vm_compute. right. right. left. reflexivity.
Defined.

(** A device command that is rejected is the last one of the run, and the
    last event of the run is an [init-swap-error] carrying the device's
    error. *)
Theorem device_rejection_ends_flow w c ex rate tx dev cmd e :
  getEnv w "MOCK" = false ->
  In (DeviceCall cmd (Throw e)) (initSwap w c ex rate tx dev) ->
  last (deviceCommands (initSwap w c ex rate tx dev)) signCoinTransaction = cmd /\
  last (events (initSwap w c ex rate tx dev)) init_swap_requested = init_swap_error e.
Proof.
  intros HM HI.
  pose proof (In_existsb device_rejected _ _ HI eq_refl) as Hp.
  revert HI.
  runs HM w c t.
  all: prune Hp.
  all: intros HI; pick HI.
  all: same_call HI; split; reflexivity.
Qed.

Lemma device_rejection_ends_flow_witness :
  last (deviceCommands
          (initSwap Sample.deviceRefuses None Sample.exchange Sample.exchangeRate
             Sample.transaction "nano")) signCoinTransaction = signCoinTransaction /\
  last (events
          (initSwap Sample.deviceRefuses None Sample.exchange Sample.exchangeRate
             Sample.transaction "nano")) init_swap_requested
  = init_swap_error (Sample.failure "denied by the user").
Proof.
  apply (device_rejection_ends_flow Sample.deviceRefuses None Sample.exchange
           Sample.exchangeRate Sample.transaction "nano").
  - reflexivity.
  - vm_compute. do 14 right. left. reflexivity.
Defined.

(** ** The shape of every run *)

Lemma follows_sound (l order : list string) :
  follows l order = true ->
  exists n, l = firstn n order \/ l = (firstn n order ++ ["init-swap-error"])%list.
Proof.
  revert order. induction l as [|x l IH]; intros order H.
  - exists 0%nat. left. reflexivity.
  - assert (Herr : (x =? "init-swap-error") && is_falsy (hd_error l) = true ->
                   (x :: l) = ["init-swap-error"]).
    { intros He. apply andb_prop in He. destruct He as [Hx Hl].
      apply String.eqb_eq in Hx. subst x. destruct l; [ reflexivity | discriminate Hl ]. }
    destruct order as [|y order]; simpl in H.
    + exists 0%nat. right. simpl. apply Herr, H.
    + destruct (x =? y) eqn:E.
      * apply String.eqb_eq in E. subst y. destruct (IH order H) as [n [Hn|Hn]].
        -- exists (S n). left. simpl. rewrite <- Hn. reflexivity.
        -- exists (S n). right. simpl. rewrite <- Hn. reflexivity.
      * exists 0%nat. right. simpl. apply Herr, H.
Qed.

(** One run through all the cases, for the facts that hold of every run. *)
Lemma every_run w c ex rate tx dev :
  getEnv w "MOCK" = false ->
  follows (timeline (initSwap w c ex rate tx dev)) timelineOrder = true /\
  (length (filter is_rate_lock (initSwap w c ex rate tx dev)) <=? 1)%nat = true /\
  (length (filter is_prepare (initSwap w c ex rate tx dev)) <=? 1)%nat = true /\
  (length (filter is_status (initSwap w c ex rate tx dev)) <=? 1)%nat = true /\
  last (initSwap w c ex rate tx dev) Teardown = Complete /\
  length (filter is_complete (initSwap w c ex rate tx dev)) =
    (if existsb rate_lock_rejected (initSwap w c ex rate tx dev) then 2 else 1)%nat.
Proof.
  intros HM. runs HM w c t.
  all: repeat split; reflexivity.
Qed.

(** In every run the device commands and the events follow one fixed
    sequence: the run goes through a beginning of it, and may then end
    with one [init-swap-error]. *)
Theorem runs_follow_timeline w c ex rate tx dev :
  getEnv w "MOCK" = false ->
  exists n,
    timeline (initSwap w c ex rate tx dev) = firstn n timelineOrder \/
    timeline (initSwap w c ex rate tx dev)
    = (firstn n timelineOrder ++ ["init-swap-error"])%list.
Proof.
  intros HM. apply follows_sound. exact (proj1 (every_run w c ex rate tx dev HM)).
Qed.

Lemma runs_follow_timeline_witness :
  exists n,
    timeline (initSwap Sample.deviceRefuses None Sample.exchange Sample.exchangeRate
                Sample.transaction "nano") = firstn n timelineOrder \/
    timeline (initSwap Sample.deviceRefuses None Sample.exchange Sample.exchangeRate
                Sample.transaction "nano")
    = (firstn n timelineOrder ++ ["init-swap-error"])%list.
Proof.
  apply (runs_follow_timeline Sample.deviceRefuses None Sample.exchange Sample.exchangeRate
           Sample.transaction "nano").
  reflexivity.
Defined.

(** The flow never retries: a run makes at most one rate-lock request, and
    calls [prepareTransaction] and [getTransactionStatus] at most once. *)
Theorem single_attempt w c ex rate tx dev :
  getEnv w "MOCK" = false ->
  (length (filter is_rate_lock (initSwap w c ex rate tx dev)) <= 1)%nat /\
  (length (filter is_prepare (initSwap w c ex rate tx dev)) <= 1)%nat /\
  (length (filter is_status (initSwap w c ex rate tx dev)) <= 1)%nat.
Proof.
  intros HM. destruct (every_run w c ex rate tx dev HM) as (_ & H1 & H2 & H3 & _).
  repeat split; apply Nat.leb_le; assumption.
Qed.

Lemma single_attempt_witness :
  (length (filter is_rate_lock
             (initSwap Sample.apiDown None Sample.exchange Sample.exchangeRate
                Sample.transaction "nano")) <= 1)%nat /\
  (length (filter is_prepare
             (initSwap Sample.apiDown None Sample.exchange Sample.exchangeRate
                Sample.transaction "nano")) <= 1)%nat /\
  (length (filter is_status
             (initSwap Sample.apiDown None Sample.exchange Sample.exchangeRate
                Sample.transaction "nano")) <= 1)%nat.
Proof.
  apply (single_attempt Sample.apiDown None Sample.exchange Sample.exchangeRate
           Sample.transaction "nano").
  reflexivity.
Defined.

(** Every run ends with [o.complete()]; it is called once, and twice when
    the rate-lock call failed (once in the [catch] block, once when
    [confirmSwap] then resolves). *)
Theorem stream_completes w c ex rate tx dev :
  getEnv w "MOCK" = false ->
  last (initSwap w c ex rate tx dev) Teardown = Complete /\
  length (filter is_complete (initSwap w c ex rate tx dev)) =
    (if existsb rate_lock_rejected (initSwap w c ex rate tx dev) then 2 else 1)%nat.
Proof.
  intros HM. destruct (every_run w c ex rate tx dev HM) as (_ & _ & _ & _ & H).
  exact H.
Qed.

Lemma stream_completes_witness :
  last (initSwap Sample.apiDown None Sample.exchange Sample.exchangeRate Sample.transaction
          "nano") Teardown = Complete /\
  length (filter is_complete
            (initSwap Sample.apiDown None Sample.exchange Sample.exchangeRate
               Sample.transaction "nano"))
  = (if existsb rate_lock_rejected
          (initSwap Sample.apiDown None Sample.exchange Sample.exchangeRate
             Sample.transaction "nano") then 2 else 1)%nat.
Proof.
  apply (stream_completes Sample.apiDown None Sample.exchange Sample.exchangeRate
           Sample.transaction "nano").
  reflexivity.
Defined.

(** ** What unsubscribing stops *)

Lemma unsubscribed_runs w c ex rate tx dev :
  getEnv w "MOCK" = false ->
  existsb is_teardown (initSwap w c ex rate tx dev) = true ->
  (existsb is_requested (events (before_teardown (initSwap w c ex rate tx dev))) = false ->
   existsb asksApproval (timeline (initSwap w c ex rate tx dev)) = false /\
   existsb is_requested (events (initSwap w c ex rate tx dev)) = false) /\
  (bridgeCalls (before_teardown (initSwap w c ex rate tx dev)) = [] ->
   bridgeCalls (initSwap w c ex rate tx dev) = [] /\
   deviceCommands (initSwap w c ex rate tx dev) = [startNewTransaction]).
Proof.
  intros HM. runs HM w c t.
  all: intros HT; prune HT.
  all: split; intros H; try (split; reflexivity); simpl in H; discriminate H.
Qed.

Lemma In_teardown (t : Trace) : In Teardown t -> existsb is_teardown t = true.
Proof. intros H. apply (In_existsb is_teardown Teardown t H). reflexivity. Qed.

(** If the caller unsubscribes before [init-swap-requested] is emitted,
    the device is never asked [checkRefundAddress] or
    [signCoinTransaction], and [init-swap-requested] is never emitted. *)
Theorem unsubscribed_before_requested w c ex rate tx dev :
  getEnv w "MOCK" = false ->
  In Teardown (initSwap w c ex rate tx dev) ->
  ~ In init_swap_requested (events (before_teardown (initSwap w c ex rate tx dev))) ->
  ~ In "checkRefundAddress" (timeline (initSwap w c ex rate tx dev)) /\
  ~ In "signCoinTransaction" (timeline (initSwap w c ex rate tx dev)) /\
  ~ In init_swap_requested (events (initSwap w c ex rate tx dev)).
Proof.
  intros HM HT Hb.
  destruct (unsubscribed_runs w c ex rate tx dev HM (In_teardown _ HT)) as [H _].
  destruct H as [Ha Hr].
  - destruct (existsb is_requested (events (before_teardown (initSwap w c ex rate tx dev))))
      eqn:E; [ | reflexivity ].
    exfalso. apply Hb. apply existsb_exists in E. destruct E as [e [He Hq]].
    destruct e; try discriminate Hq. exact He.
  - repeat split; intros Hin.
    + rewrite (In_existsb asksApproval _ _ Hin eq_refl) in Ha. discriminate Ha.
    + rewrite (In_existsb asksApproval _ _ Hin eq_refl) in Ha. discriminate Ha.
    + rewrite (In_existsb is_requested _ _ Hin eq_refl) in Hr. discriminate Hr.
Qed.

Lemma unsubscribed_before_requested_witness :
  ~ In "checkRefundAddress"
      (timeline (initSwap Sample.happy (Some 5%nat) Sample.exchange Sample.exchangeRate
                   Sample.transaction "nano")) /\
  ~ In "signCoinTransaction"
      (timeline (initSwap Sample.happy (Some 5%nat) Sample.exchange Sample.exchangeRate
                   Sample.transaction "nano")) /\
  ~ In init_swap_requested
      (events (initSwap Sample.happy (Some 5%nat) Sample.exchange Sample.exchangeRate
                 Sample.transaction "nano")).
Proof.
  apply (unsubscribed_before_requested Sample.happy (Some 5%nat) Sample.exchange
           Sample.exchangeRate Sample.transaction "nano").
  - reflexivity.
  - vm_compute. do 7 right. left. reflexivity.
  - vm_compute. intros [].
Defined.

(** If the caller unsubscribes before the bridge has been called, the
    bridge is never called and the device gets no command after
    [startNewTransaction]. *)
Theorem unsubscribed_before_bridge w c ex rate tx dev :
  getEnv w "MOCK" = false ->
  In Teardown (initSwap w c ex rate tx dev) ->
  bridgeCalls (before_teardown (initSwap w c ex rate tx dev)) = [] ->
  bridgeCalls (initSwap w c ex rate tx dev) = [] /\
  deviceCommands (initSwap w c ex rate tx dev) = [startNewTransaction].
Proof.
  intros HM HT Hb.
  exact (proj2 (unsubscribed_runs w c ex rate tx dev HM (In_teardown _ HT)) Hb).
Qed.

Lemma unsubscribed_before_bridge_witness :
  bridgeCalls (initSwap Sample.happy (Some 1%nat) Sample.exchange Sample.exchangeRate
                 Sample.transaction "nano") = [] /\
  deviceCommands (initSwap Sample.happy (Some 1%nat) Sample.exchange Sample.exchangeRate
                    Sample.transaction "nano") = [startNewTransaction].
Proof.
  apply (unsubscribed_before_bridge Sample.happy (Some 1%nat) Sample.exchange
           Sample.exchangeRate Sample.transaction "nano").
  - reflexivity.
  - vm_compute. do 3 right. left. reflexivity.
  - reflexivity.
Defined.

(** ** What the device and the result are given *)

(** Finds an action in an explicit trace. *)
Ltac find_action := simpl; repeat (first [ left; reflexivity | right ]).

(** Closes a run in which no action passes the test [p], given [H : In a t]
    for an action [a] that does. *)
Ltac absent H p := try (exfalso; exact (Bool.diff_false_true (In_existsb p _ _ H eq_refl))).

Ltac absent_call :=
  match goal with
  | H : In (Next _) _ |- _ => absent H is_result
  | H : In (DeviceCall ?c _) _ |- _ => absent H (callOf c)
  end.

(** The response of a recorded rate-lock call, with its quote in view. *)
Ltac open_response :=
  match goal with
  | H : data ?r = Some (?q :: ?rest) |- _ => destruct r as [d]; simpl in H; subst d
  end.

Lemma data_flow w c ex rate tx dev :
  getEnv w "MOCK" = false ->
  (forall tx' sid,
     In (Next (init_swap_result tx' sid)) (initSwap w c ex rate tx dev) ->
     exists acc tx1 req q rest,
       In (PrepareTransactionCall acc tx1 (Normal tx')) (initSwap w c ex rate tx dev) /\
       In (NetworkCall req (Normal (Some {| data := Some (q :: rest) |})))
          (initSwap w c ex rate tx dev) /\
       sid = swapId q) /\
  (forall payload fee r,
     In (DeviceCall (processTransaction payload fee) r) (initSwap w c ex rate tx dev) ->
     exists acc tx1 tx2 st req q rest,
       In (PrepareTransactionCall acc tx1 (Normal tx2)) (initSwap w c ex rate tx dev) /\
       In (GetTransactionStatusCall acc tx2 (Normal st)) (initSwap w c ex rate tx dev) /\
       fee = estimatedFees st /\
       In (NetworkCall req (Normal (Some {| data := Some (q :: rest) |})))
          (initSwap w c ex rate tx dev) /\
       payload = BufferFromHex (binaryPayload q)) /\
  (forall cfg sig params r,
     In (DeviceCall (checkPayoutAddress cfg sig params) r) (initSwap w c ex rate tx dev) ->
     exists swapConfig,
       getCurrencySwapConfig w (getAccountCurrency w (toAccount ex)) = Normal swapConfig /\
       cfg = config swapConfig /\ sig = config_signature swapConfig /\
       getSerializedAddressParameters w
         (family (getAccountCurrency w (toAccount ex)))
         (freshAddressPath (getMainAccount w (toAccount ex) (toParentAccount ex)))
         (derivationMode (getMainAccount w (toAccount ex) (toParentAccount ex)))
       = Normal {| addressParameters := params |}) /\
  (forall cfg sig params r,
     In (DeviceCall (checkRefundAddress cfg sig params) r) (initSwap w c ex rate tx dev) ->
     exists swapConfig,
       getCurrencySwapConfig w (getAccountCurrency w (fromAccount ex)) = Normal swapConfig /\
       cfg = config swapConfig /\ sig = config_signature swapConfig /\
       getSerializedAddressParameters w
         (family (getAccountCurrency w (fromAccount ex)))
         (freshAddressPath (getMainAccount w (fromAccount ex) (fromParentAccount ex)))
         (derivationMode (getMainAccount w (fromAccount ex) (fromParentAccount ex)))
       = Normal {| addressParameters := params |}) /\
  (forall key r,
     In (DeviceCall (setPartnerKey key) r) (initSwap w c ex rate tx dev) ->
     exists req q rest p,
       In (NetworkCall req (Normal (Some {| data := Some (q :: rest) |})))
          (initSwap w c ex rate tx dev) /\
       getProviderNameAndSignature w (res_provider q) = Normal p /\
       key = nameAndPubkey p) /\
  (forall sig r,
     In (DeviceCall (checkTransactionSignature sig) r) (initSwap w c ex rate tx dev) ->
     exists req q rest,
       In (NetworkCall req (Normal (Some {| data := Some (q :: rest) |})))
          (initSwap w c ex rate tx dev) /\
       signatureExport w (BufferFromHex (signature q)) = Normal sig).
Proof.
  intros HM. runs HM w c t.
  all: split; [ | split; [ | split; [ | split; [ | split ] ] ] ].
  all: intros; absent_call.
  all: match goal with H : In _ _ |- _ => pick H; same_call H end.
  all: try open_response.
  all: repeat match goal with
         | a : AddressParameters |- _ => destruct a
         end.
  all: repeat eexists; try eassumption; try reflexivity; find_action.
Qed.

(** The result carries the transaction that [prepareTransaction] returned
    and the [swapId] of the quote. *)
Theorem result_carries_prepared_transaction w c ex rate tx dev tx' sid :
  getEnv w "MOCK" = false ->
  In (Next (init_swap_result tx' sid)) (initSwap w c ex rate tx dev) ->
  exists acc tx1 req q rest,
    In (PrepareTransactionCall acc tx1 (Normal tx')) (initSwap w c ex rate tx dev) /\
    In (NetworkCall req (Normal (Some {| data := Some (q :: rest) |})))
       (initSwap w c ex rate tx dev) /\
    sid = swapId q.
Proof.
  intros HM. exact (proj1 (data_flow w c ex rate tx dev HM) tx' sid).
Qed.

Lemma result_carries_prepared_transaction_witness :
  exists acc tx1 req q rest,
    In (PrepareTransactionCall acc tx1
          (Normal (updateTransaction Sample.transaction {| patch_recipient := "bc1qpayin" |})))
       (initSwap Sample.happy None Sample.exchange Sample.exchangeRate Sample.transaction "nano") /\
    In (NetworkCall req (Normal (Some {| data := Some (q :: rest) |})))
       (initSwap Sample.happy None Sample.exchange Sample.exchangeRate Sample.transaction "nano") /\
    "swap-42" = swapId q.
Proof.
  apply (result_carries_prepared_transaction Sample.happy None Sample.exchange
           Sample.exchangeRate Sample.transaction "nano").
  - reflexivity.
  - vm_compute. do 15 right. left. reflexivity.
Defined.

(** The device processes the binary payload of the quote with the fees
    the bridge estimated for the prepared transaction. *)
Theorem device_processes_quote_and_fees w c ex rate tx dev payload fee r :
  getEnv w "MOCK" = false ->
  In (DeviceCall (processTransaction payload fee) r) (initSwap w c ex rate tx dev) ->
  exists acc tx1 tx2 st req q rest,
    In (PrepareTransactionCall acc tx1 (Normal tx2)) (initSwap w c ex rate tx dev) /\
    In (GetTransactionStatusCall acc tx2 (Normal st)) (initSwap w c ex rate tx dev) /\
    fee = estimatedFees st /\
    In (NetworkCall req (Normal (Some {| data := Some (q :: rest) |})))
       (initSwap w c ex rate tx dev) /\
    payload = BufferFromHex (binaryPayload q).
Proof.
  intros HM.
  exact (proj1 (proj2 (data_flow w c ex rate tx dev HM)) payload fee r).
Qed.

Lemma device_processes_quote_and_fees_witness :
  exists acc tx1 tx2 st req q rest,
    In (PrepareTransactionCall acc tx1 (Normal tx2))
       (initSwap Sample.happy None Sample.exchange Sample.exchangeRate Sample.transaction "nano") /\
    In (GetTransactionStatusCall acc tx2 (Normal st))
       (initSwap Sample.happy None Sample.exchange Sample.exchangeRate Sample.transaction "nano") /\
    Sample.fees = estimatedFees st /\
    In (NetworkCall req (Normal (Some {| data := Some (q :: rest) |})))
       (initSwap Sample.happy None Sample.exchange Sample.exchangeRate Sample.transaction "nano") /\
    BufferFromHex "0a0b" = BufferFromHex (binaryPayload q).
Proof.
  apply (device_processes_quote_and_fees Sample.happy None Sample.exchange Sample.exchangeRate
           Sample.transaction "nano" (BufferFromHex "0a0b") Sample.fees (Normal "")).
  - reflexivity.
  - vm_compute. do 7 right. left. reflexivity.
Defined.

(** Each address check is given its own side: [checkPayoutAddress] the
    swap configuration of the payout currency and the address parameters
    of the payout account, [checkRefundAddress] those of the refund
    currency and the refund account. *)
Theorem address_checks_use_their_side w c ex rate tx dev cfg sig params r :
  getEnv w "MOCK" = false ->
  (In (DeviceCall (checkPayoutAddress cfg sig params) r) (initSwap w c ex rate tx dev) ->
   exists swapConfig,
     getCurrencySwapConfig w (getAccountCurrency w (toAccount ex)) = Normal swapConfig /\
     cfg = config swapConfig /\ sig = config_signature swapConfig /\
     getSerializedAddressParameters w
       (family (getAccountCurrency w (toAccount ex)))
       (freshAddressPath (getMainAccount w (toAccount ex) (toParentAccount ex)))
       (derivationMode (getMainAccount w (toAccount ex) (toParentAccount ex)))
     = Normal {| addressParameters := params |}) /\
  (In (DeviceCall (checkRefundAddress cfg sig params) r) (initSwap w c ex rate tx dev) ->
   exists swapConfig,
     getCurrencySwapConfig w (getAccountCurrency w (fromAccount ex)) = Normal swapConfig /\
     cfg = config swapConfig /\ sig = config_signature swapConfig /\
     getSerializedAddressParameters w
       (family (getAccountCurrency w (fromAccount ex)))
       (freshAddressPath (getMainAccount w (fromAccount ex) (fromParentAccount ex)))
       (derivationMode (getMainAccount w (fromAccount ex) (fromParentAccount ex)))
     = Normal {| addressParameters := params |}).
Proof.
  intros HM.
  destruct (data_flow w c ex rate tx dev HM) as (_ & _ & Hp & Hr & _).
  split; [ apply Hp | apply Hr ].
Qed.

Lemma address_checks_use_their_side_witness :
  exists swapConfig,
    getCurrencySwapConfig Sample.happy Sample.ethereum = Normal swapConfig /\
    BufferOf "ethereum" = config swapConfig /\
    BufferOf "config-sig" = config_signature swapConfig /\
    getSerializedAddressParameters Sample.happy "ethereum" "44'/60'/0'/0/0" ""
    = Normal {| addressParameters := BufferOf "44'/60'/0'/0/0" |}.
Proof.
  apply (proj1 (address_checks_use_their_side Sample.happy None Sample.exchange
                  Sample.exchangeRate Sample.transaction "nano" (BufferOf "ethereum")
                  (BufferOf "config-sig") (BufferOf "44'/60'/0'/0/0") (Normal "") eq_refl)).
  vm_compute. do 10 right. left. reflexivity.
Defined.

(** The partner the device is told to trust is the provider named in the
    quote, and the signature it checks is the quote's signature after
    [signatureExport]. *)
Theorem partner_and_signature_from_quote w c ex rate tx dev :
  getEnv w "MOCK" = false ->
  (forall key r,
     In (DeviceCall (setPartnerKey key) r) (initSwap w c ex rate tx dev) ->
     exists req q rest p,
       In (NetworkCall req (Normal (Some {| data := Some (q :: rest) |})))
          (initSwap w c ex rate tx dev) /\
       getProviderNameAndSignature w (res_provider q) = Normal p /\
       key = nameAndPubkey p) /\
  (forall sig r,
     In (DeviceCall (checkTransactionSignature sig) r) (initSwap w c ex rate tx dev) ->
     exists req q rest,
       In (NetworkCall req (Normal (Some {| data := Some (q :: rest) |})))
          (initSwap w c ex rate tx dev) /\
       signatureExport w (BufferFromHex (signature q)) = Normal sig).
Proof.
  intros HM.
  destruct (data_flow w c ex rate tx dev HM) as (_ & _ & _ & _ & Hk & Hs).
  split; [ exact Hk | exact Hs ].
Qed.

Lemma partner_and_signature_from_quote_witness :
  exists req q rest,
    In (NetworkCall req (Normal (Some {| data := Some (q :: rest) |})))
       (initSwap Sample.happy None Sample.exchange Sample.exchangeRate Sample.transaction "nano") /\
    signatureExport Sample.happy (BufferFromHex (signature q)) = Normal (BufferFromHex "3045").
Proof.
  apply (proj2 (partner_and_signature_from_quote Sample.happy None Sample.exchange
                  Sample.exchangeRate Sample.transaction "nano" eq_refl)
           (BufferFromHex "3045") (Normal "")).
  vm_compute. do 8 right. left. reflexivity.
Defined.

(** * Facts about importing accounts *)

Module ImportAccountsFacts.

Import ImportAccounts.
Local Open Scope list_scope.

(** ** The sort *)

Lemma insert_Permutation {A} (compare : A -> A -> Z) (a : A) (l : list A) :
  Permutation (insert compare a l) (a :: l).
Proof.
  induction l as [|b l IH]; simpl.
  - apply Permutation_refl.
  - destruct (compare a b <=? 0)%Z.
    + apply Permutation_refl.
    + apply Permutation_trans with (b :: a :: l).
      * apply perm_skip, IH.
      * apply perm_swap.
Qed.

Lemma sort_Permutation {A} (compare : A -> A -> Z) (l : list A) :
  Permutation (sort compare l) l.
Proof.
  induction l as [|a l IH]; simpl.
  - apply perm_nil.
  - apply Permutation_trans with (a :: sort compare l).
    + apply insert_Permutation.
    + apply perm_skip, IH.
Qed.

Lemma In_sort {A} (compare : A -> A -> Z) (l : list A) (a : A) :
  In a (sort compare l) <-> In a l.
Proof.
  split; apply Permutation_in.
  - apply sort_Permutation.
  - apply Permutation_sym, sort_Permutation.
Qed.

Lemma length_sort {A} (compare : A -> A -> Z) (l : list A) :
  length (sort compare l) = length l.
Proof. apply Permutation_length, sort_Permutation. Qed.

Lemma insert_sorted (a : ImportItem) (l : list ImportItem) :
  StronglySorted displayedBefore l -> StronglySorted displayedBefore (insert compareModes a l).
Proof.
  induction l as [|b l IH]; intros Hs; simpl.
  - constructor; constructor.
  - inversion Hs as [|? ? Hl Hb]; subst.
    destruct (compareModes a b <=? 0)%Z eqn:E.
    + apply Z.leb_le in E. unfold compareModes in E.
      constructor; [ exact Hs | ].
      constructor; [ unfold displayedBefore; lia | ].
      apply Forall_impl with (P := displayedBefore b); [ | exact Hb ].
      unfold displayedBefore. intros c Hc. lia.
    + apply Z.leb_gt in E. unfold compareModes in E.
      constructor; [ apply IH, Hl | ].
      apply Forall_forall. intros c Hc.
      apply (Permutation_in _ (insert_Permutation compareModes a l)) in Hc.
      destruct Hc as [<-|Hc].
      * unfold displayedBefore. lia.
      * exact (proj1 (Forall_forall _ _) Hb c Hc).
Qed.

Lemma sort_sorted (l : list ImportItem) : StronglySorted displayedBefore (sort compareModes l).
Proof.
  induction l as [|a l IH]; simpl.
  - constructor.
  - apply insert_sorted, IH.
Qed.

(** A list that is already in display order is left as it is. *)
Lemma insert_head (a : ImportItem) (l : list ImportItem) :
  Forall (displayedBefore a) l -> insert compareModes a l = a :: l.
Proof.
  destruct l as [|b l]; intros H; simpl; [ reflexivity | ].
  inversion H as [|? ? Hab _]; subst. unfold displayedBefore in Hab.
  destruct (compareModes a b <=? 0)%Z eqn:E; [ reflexivity | ].
  apply Z.leb_gt in E. unfold compareModes in E. lia.
Qed.

Lemma sort_sorted_id (l : list ImportItem) :
  StronglySorted displayedBefore l -> sort compareModes l = l.
Proof.
  induction l as [|a l IH]; intros Hs; simpl; [ reflexivity | ].
  inversion Hs as [|? ? Hl Ha]; subst.
  rewrite (IH Hl). apply insert_head, Ha.
Qed.

Lemma In_filterBoolean {A} (l : list (option A)) (a : A) :
  In a (filterBoolean l) <-> In (Some a) l.
Proof.
  induction l as [|[b|] l IH]; simpl.
  - tauto.
  - rewrite IH. split; intros [H|H]; auto; left; congruence.
  - rewrite IH. split; [ auto | intros [H|H]; [ discriminate H | exact H ] ].
Qed.

Lemma length_filterBoolean {A} (l : list (option A)) :
  (length (filterBoolean l) <= length l)%nat.
Proof. induction l as [|[b|] l IH]; simpl; lia. Qed.

(** ** importAccountsMakeItems *)

Lemma previousItem_In items accInput prevItem :
  previousItem items accInput = Some prevItem ->
  In prevItem (orEmpty items) /\ id (account prevItem) = data_id accInput.
Proof.
  unfold previousItem. intros H. apply find_some in H. destruct H as [Hin Heq].
  split; [ exact Hin | apply String.eqb_eq, Heq ].
Qed.

Lemma find_migratable_In x account existing found :
  find_migratable x account existing = Normal (Some found) -> In found existing.
Proof.
  induction existing as [|a rest IH]; simpl; intros H.
  - discriminate H.
  - destruct (findAccountMigration x a [account]) as [[m|]|e]; simpl in H.
    + injection H as <-. left. reflexivity.
    + right. apply IH, H.
    + discriminate H.
Qed.

Lemma buildItem_wellTargeted x existing inputs accInput item :
  In accInput inputs ->
  buildItem x existing accInput = Normal item ->
  wellTargeted x existing inputs item.
Proof.
  intros Hin. unfold buildItem, wellTargeted.
  destruct (accountDataToAccount x accInput) as [acc|e] eqn:Ea; simpl; [ | discriminate ].
  destruct (checkAccountSupported x acc) as [[err|]|e]; simpl; [ | | discriminate ].
  - intros H. injection H as <-. reflexivity.
  - destruct (find_migratable x acc existing) as [[m|]|e] eqn:Em; simpl; [ | | discriminate ].
    + intros H. injection H as <-. simpl.
      exists m. split; [ apply (find_migratable_In x acc), Em | reflexivity ].
    + destruct (find (fun a => id a =? data_id accInput) existing) as [ex|] eqn:Ef.
      * apply find_some in Ef. destruct Ef as [Hex Hid]. apply String.eqb_eq in Hid.
        destruct ((name ex =? data_name accInput) && isEqual (swapHistory ex) (swapHistory acc))
          eqn:Esame.
        -- intros H. injection H as <-. simpl. split; [ exact Hex | split; [ reflexivity | ] ].
           exists accInput. apply andb_prop in Esame. destruct Esame as [Hname _].
           apply String.eqb_eq in Hname. auto.
        -- destruct (joinSwapHistories x (swapHistory ex) (swapHistory acc)) as [j|e];
             simpl; [ | discriminate ].
           intros H. injection H as <-. simpl.
           exists ex. split; [ exact Hex | reflexivity ].
      * intros H. injection H as <-. simpl. split; [ reflexivity | ].
        exists accInput. split; [ exact Hin | split; [ exact Ea | ] ].
        intros a Ha Heq.
        pose proof (find_none _ _ Ef a Ha) as Hn. simpl in Hn.
        apply String.eqb_neq in Hn. contradiction.
Qed.

Lemma In_makeItems x result existing items item :
  In item (importAccountsMakeItems x result existing items) <->
  exists accInput, In accInput (accounts result) /\
                   makeItem x existing items accInput = Some item.
Proof.
  unfold importAccountsMakeItems. rewrite In_sort, In_filterBoolean, in_map_iff.
  split; intros [accInput [H1 H2]]; exists accInput; auto.
Qed.

(** The items come out in display order: the accounts to create, then the
    accounts to update, then the unchanged ones, then the unsupported
    ones. *)
Theorem makeItems_display_order x result existing items :
  StronglySorted displayedBefore (importAccountsMakeItems x result existing items).
Proof. apply sort_sorted. Qed.

(** There is at most one item per input account, and exactly one when no
    step of the conversion throws. *)
Theorem makeItems_length x result existing items :
  (length (importAccountsMakeItems x result existing items) <= length (accounts result))%nat /\
  ((forall accInput e, In accInput (accounts result) ->
                       buildItem x existing accInput <> Throw e) ->
   length (importAccountsMakeItems x result existing items) = length (accounts result)).
Proof.
  unfold importAccountsMakeItems. rewrite length_sort. split.
  - rewrite <- (length_map (makeItem x existing items) (accounts result)).
    apply length_filterBoolean.
  - generalize (accounts result). intros inputs H.
    induction inputs as [|accInput inputs IH]; simpl; [ reflexivity | ].
    assert (IH' : length (filterBoolean (map (makeItem x existing items) inputs))
                  = length inputs)
      by (apply IH; intros a e Ha; apply H; right; exact Ha).
    unfold makeItem at 1.
    destruct (previousItem items accInput); simpl; [ congruence | ].
    destruct (buildItem x existing accInput) as [item|e] eqn:Eb; simpl; [ congruence | ].
    exfalso. apply (H accInput e); [ left; reflexivity | exact Eb ].
Qed.

(** An input account whose conversion throws is skipped: without previous
    items, leaving such accounts out of the input gives the same items. *)
Theorem makeItems_skips_failures x result existing :
  importAccountsMakeItems x result existing None =
  importAccountsMakeItems x
    {| accounts := filter (fun accInput =>
                             match buildItem x existing accInput with
                             | Normal _ => true
                             | Throw _ => false
                             end) (accounts result) |}
    existing None.
Proof.
  unfold importAccountsMakeItems. simpl. f_equal.
  induction (accounts result) as [|accInput inputs IH]; simpl; [ reflexivity | ].
  unfold makeItem at 1. simpl.
  destruct (buildItem x existing accInput) as [item|e] eqn:Eb; simpl.
  - unfold makeItem at 2. simpl. rewrite Eb. f_equal. exact IH.
  - exact IH.
Qed.

(** When every input account has a previous item, the previous items are
    reused as they are: nothing is converted, and the result depends
    neither on the collaborators nor on the existing accounts. *)
Theorem makeItems_reuses_previous_items x result existing items :
  (forall accInput, In accInput (accounts result) ->
     exists item, In item items /\ id (account item) = data_id accInput) ->
  (forall item, In item (importAccountsMakeItems x result existing (Some items)) ->
                In item items) /\
  (forall x' existing',
     importAccountsMakeItems x' result existing' (Some items) =
     importAccountsMakeItems x result existing (Some items)).
Proof.
  intros Hall.
  assert (Hprev : forall accInput, In accInput (accounts result) ->
                    exists prevItem, previousItem (Some items) accInput = Some prevItem).
  { intros accInput Hin. destruct (Hall accInput Hin) as [item [Hitem Hid]].
    unfold previousItem. simpl.
    destruct (find (fun item0 => id (account item0) =? data_id accInput) items) as [p|] eqn:Ef.
    - exists p. reflexivity.
    - exfalso. pose proof (find_none _ _ Ef item Hitem) as Hn. simpl in Hn.
      apply String.eqb_neq in Hn. contradiction. }
  split.
  - intros item Hin. apply In_makeItems in Hin. destruct Hin as [accInput [Hacc Hm]].
    destruct (Hprev accInput Hacc) as [p Hp]. unfold makeItem in Hm. rewrite Hp in Hm.
    injection Hm as <-. exact (proj1 (previousItem_In _ _ _ Hp)).
  - intros x' existing'. unfold importAccountsMakeItems. f_equal. f_equal.
    apply map_ext_in. intros accInput Hacc.
    destruct (Hprev accInput Hacc) as [p Hp]. unfold makeItem. rewrite Hp. reflexivity.
Qed.

(** Every item is a previous item or is well targeted: an [update] names
    an existing account, an [id] carries an existing account unchanged, a
    [create] is for an input whose id no existing account has. *)
Theorem makeItems_well_targeted x result existing items item :
  In item (importAccountsMakeItems x result existing items) ->
  In item (orEmpty items) \/ wellTargeted x existing (accounts result) item.
Proof.
  intros Hin. apply In_makeItems in Hin. destruct Hin as [accInput [Hacc Hm]].
  unfold makeItem in Hm.
  destruct (previousItem items accInput) as [p|] eqn:Ep.
  - injection Hm as <-. left. exact (proj1 (previousItem_In _ _ _ Ep)).
  - destruct (buildItem x existing accInput) as [it|e] eqn:Eb; [ | discriminate Hm ].
    injection Hm as <-. right. exact (buildItem_wellTargeted _ _ _ _ _ Hacc Eb).
Qed.

Lemma NoDup_map_injective {A B} (f : A -> B) (l : list A) (a b : A) :
  NoDup (map f l) -> In a l -> In b l -> f a = f b -> a = b.
Proof.
  induction l as [|c l IH]; simpl; intros Hnd Ha Hb Hf; [ contradiction | ].
  inversion Hnd as [|? ? Hc Hl]; subst.
  destruct Ha as [->|Ha], Hb as [->|Hb].
  - reflexivity.
  - exfalso. apply Hc. rewrite Hf. apply in_map, Hb.
  - exfalso. apply Hc. rewrite <- Hf. apply in_map, Ha.
  - apply IH; assumption.
Qed.

(** The account of a new item has the id of the input it was built for,
    when the conversion keeps ids. *)
Lemma buildItem_id x existing accInput item :
  (forall a, accountDataToAccount x accInput = Normal a -> id a = data_id accInput) ->
  buildItem x existing accInput = Normal item ->
  id (account item) = data_id accInput.
Proof.
  intros Hkeep. unfold buildItem.
  destruct (accountDataToAccount x accInput) as [acc|e]; simpl; [ | discriminate ].
  specialize (Hkeep acc eq_refl).
  destruct (checkAccountSupported x acc) as [[err|]|e]; simpl; [ | | discriminate ].
  - intros H. injection H as <-. exact Hkeep.
  - destruct (find_migratable x acc existing) as [[m|]|e]; simpl; [ | | discriminate ].
    + intros H. injection H as <-. exact Hkeep.
    + destruct (find (fun a => id a =? data_id accInput) existing) as [ex|] eqn:Ef.
      * apply find_some in Ef. destruct Ef as [_ Hid]. apply String.eqb_eq in Hid.
        destruct ((name ex =? data_name accInput) && isEqual (swapHistory ex) (swapHistory acc)).
        -- intros H. injection H as <-. exact Hid.
        -- destruct (joinSwapHistories x (swapHistory ex) (swapHistory acc)) as [j|e];
             simpl; [ | discriminate ].
           intros H. injection H as <-. exact Hid.
      * intros H. injection H as <-. exact Hkeep.
Qed.

(** Feeding the items back in is stable: when the input ids are distinct
    and the conversion keeps ids, calling the function again with its own
    result as the previous items returns that result. *)
Theorem makeItems_feedback x result existing :
  NoDup (map data_id (accounts result)) ->
  (forall accInput a, accountDataToAccount x accInput = Normal a -> id a = data_id accInput) ->
  importAccountsMakeItems x result existing
    (Some (importAccountsMakeItems x result existing None))
  = importAccountsMakeItems x result existing None.
Proof.
  intros Hnd Hkeep.
  set (out := importAccountsMakeItems x result existing None).
  enough (Hmap : map (makeItem x existing (Some out)) (accounts result)
                 = map (makeItem x existing None) (accounts result))
    by (unfold importAccountsMakeItems at 1; rewrite Hmap; reflexivity).
  apply map_ext_in. intros accInput Hacc.
  assert (Hsame : forall item, In item out ->
                    id (account item) = data_id accInput ->
                    makeItem x existing None accInput = Some item).
  { intros item Hitem Hid. apply In_makeItems in Hitem.
    destruct Hitem as [accInput' [Hacc' Hm']].
    assert (Hid' : id (account item) = data_id accInput').
    { unfold makeItem in Hm'. simpl in Hm'.
      destruct (buildItem x existing accInput') as [it|e] eqn:Eb; [ | discriminate Hm' ].
      injection Hm' as <-. apply (buildItem_id x existing); [ apply Hkeep | exact Eb ]. }
    assert (accInput' = accInput).
    { apply (NoDup_map_injective data_id (accounts result)); try assumption. congruence. }
    subst accInput'. exact Hm'. }
  unfold makeItem at 1.
  destruct (previousItem (Some out) accInput) as [p|] eqn:Ep.
  - destruct (previousItem_In _ _ _ Ep) as [Hp Hid]. simpl in Hp.
    symmetry. apply Hsame; assumption.
  - unfold makeItem. simpl. reflexivity.
Qed.

(** ** importAccountsReduce *)

Lemma replaceFound_length i account l l' :
  replaceFound i account l = Some l' -> length l' = length l.
Proof.
  revert l'. induction l as [|a l IH]; simpl; intros l' H; [ discriminate H | ].
  destruct (id a =? i).
  - injection H as <-. reflexivity.
  - destruct (replaceFound i account l) as [r|]; [ | discriminate H ].
    injection H as <-. simpl. f_equal. apply IH. reflexivity.
Qed.

(** The replacement, spelled out: the first account with the id goes, the
    new account takes its place, the others stay where they are. *)
Lemma replaceFound_Some i account l l' :
  replaceFound i account l = Some l' <->
  exists before old after,
    l = before ++ old :: after /\ l' = before ++ account :: after /\
    id old = i /\ forall a, In a before -> id a <> i.
Proof.
  revert l'. induction l as [|a l IH]; simpl; intros l'.
  - split; [ discriminate | ].
    intros (before & old & after & H & _). destruct before; discriminate H.
  - destruct (id a =? i) eqn:E.
    + apply String.eqb_eq in E. split.
      * intros H. injection H as <-. exists [], a, l. simpl. tauto.
      * intros (before & old & after & H1 & H2 & H3 & H4).
        destruct before as [|b before]; simpl in *.
        -- injection H1 as -> ->. subst l'. reflexivity.
        -- injection H1 as -> ->. exfalso. apply (H4 b); auto.
    + apply String.eqb_neq in E. split.
      * destruct (replaceFound i account l) as [r|]; [ | discriminate ].
        intros H. injection H as <-.
        destruct (proj1 (IH r) eq_refl) as (before & old & after & H1 & H2 & H3 & H4).
        exists (a :: before), old, after. subst. simpl.
        repeat split; trivial. intros c [<-|Hc]; auto.
      * intros (before & old & after & H1 & H2 & H3 & H4).
        destruct before as [|b before]; simpl in *.
        -- injection H1 as -> ->. contradiction.
        -- injection H1 as -> ->.
           rewrite (proj2 (IH (before ++ account :: after))).
           ++ subst l'. reflexivity.
           ++ exists before, old, after. repeat split; auto.
Qed.

Lemma replaceFound_None i account l :
  replaceFound i account l = None <-> forall a, In a l -> id a <> i.
Proof.
  induction l as [|a l IH]; simpl.
  - split; [ intros _ a [] | reflexivity ].
  - destruct (id a =? i) eqn:E.
    + apply String.eqb_eq in E. split; [ discriminate | ].
      intros H. exfalso. apply (H a); auto.
    + apply String.eqb_neq in E.
      destruct (replaceFound i account l) as [r|].
      * split; [ discriminate | ]. intros H.
        assert (Hn : @None (list Account) = None) by reflexivity.
        exfalso. assert (Hl : forall b, In b l -> id b <> i) by (intros b Hb; apply H; auto).
        apply IH in Hl. discriminate Hl.
      * split; [ | reflexivity ]. intros _ b [<-|Hb]; [ exact E | ].
        apply (proj1 IH eq_refl b Hb).
Qed.

Lemma applyItem_length accounts item :
  length (elements (applyItem accounts item)) =
  (length (elements accounts) + (if isCreate item then 1 else 0))%nat.
Proof.
  unfold applyItem, isCreate. destruct (mode item); simpl; try lia.
  - rewrite length_app. simpl. reflexivity.
  - destruct (replaceFound (initialAccountId item) (account item) (elements accounts)) eqn:E;
      simpl; [ | lia ].
    rewrite (replaceFound_length _ _ _ _ E). lia.
Qed.

Lemma fold_applyItem_length items accounts :
  length (elements (fold_left applyItem items accounts)) =
  (length (elements accounts) + length (filter isCreate items))%nat.
Proof.
  revert accounts. induction items as [|item items IH]; intros accounts; simpl; [ lia | ].
  rewrite IH, applyItem_length. destruct (isCreate item); simpl; lia.
Qed.

(** Only [create] changes the number of accounts: the result has one more
    account per selected [create] item, whatever the [update] items find. *)
Theorem reduce_length existingAccounts items selectedAccounts :
  length (elements (importAccountsReduce existingAccounts items selectedAccounts)) =
  (length existingAccounts
   + length (filter isCreate (selectedItems items selectedAccounts)))%nat.
Proof. unfold importAccountsReduce. rewrite fold_applyItem_length. reflexivity. Qed.

(** Items that are not selected, and selected items of mode [id] or
    [unsupported], change nothing. *)
Theorem reduce_ignores_unchanged existingAccounts items selectedAccounts :
  (forall item, In item items -> isSelected selectedAccounts item = true ->
                mode item = mode_id \/ mode item = mode_unsupported) ->
  importAccountsReduce existingAccounts items selectedAccounts =
  {| elements := existingAccounts; minus_one := None |}.
Proof.
  unfold importAccountsReduce.
  generalize {| elements := existingAccounts; minus_one := None |}.
  induction items as [|item items IH]; intros accounts H; simpl; [ reflexivity | ].
  destruct (isSelected selectedAccounts item) eqn:Es; simpl.
  - rewrite IH by (intros it Hit; apply H; right; exact Hit).
    unfold applyItem.
    destruct (H item (or_introl eq_refl) Es) as [-> | ->]; reflexivity.
  - apply IH. intros it Hit. apply H. right. exact Hit.
Qed.

Lemma fold_applyItem_origin items accounts a :
  In a (elements (fold_left applyItem items accounts)) ->
  In a (elements accounts) \/
  exists item, In item items /\ (isCreate item || isUpdate item = true) /\ account item = a.
Proof.
  revert accounts. induction items as [|item items IH]; intros accounts; simpl; [ auto | ].
  intros H. apply IH in H. destruct H as [H | (it & Hit & Hm & Ha)].
  - unfold applyItem in H. unfold isCreate, isUpdate.
    destruct (mode item) eqn:Em; simpl in H; auto.
    + apply in_app_or in H. destruct H as [H|[H|[]]]; [ auto | ].
      right. exists item. rewrite Em. auto.
    + destruct (replaceFound (initialAccountId item) (account item) (elements accounts))
        as [r|] eqn:Er; simpl in H; [ | auto ].
      apply replaceFound_Some in Er.
      destruct Er as (before & old & after & -> & -> & _ & _).
      apply in_app_or in H. destruct H as [H|[H|H]].
      * left. apply in_or_app. auto.
      * right. exists item. rewrite Em. auto.
      * left. apply in_or_app. right. right. exact H.
  - right. exists it. auto.
Qed.

(** Nothing is invented: every account of the result is an existing
    account or the account of a selected [create] or [update] item. *)
Theorem reduce_origin existingAccounts items selectedAccounts a :
  In a (elements (importAccountsReduce existingAccounts items selectedAccounts)) ->
  In a existingAccounts \/
  exists item, In item items /\ isSelected selectedAccounts item = true /\
               (mode item = mode_create \/ mode item = mode_update) /\ account item = a.
Proof.
  unfold importAccountsReduce. intros H. apply fold_applyItem_origin in H.
  destruct H as [H | (item & Hitem & Hm & Ha)]; [ left; exact H | right ].
  apply filter_In in Hitem. destruct Hitem as [Hin Hsel].
  exists item. repeat split; trivial.
  unfold isCreate, isUpdate in Hm. destruct (mode item); auto; discriminate Hm.
Qed.

Lemma fold_applyItem_keeps items accounts a :
  In a (elements accounts) ->
  (forall item, In item items -> mode item = mode_update -> initialAccountId item <> id a) ->
  In a (elements (fold_left applyItem items accounts)).
Proof.
  revert accounts. induction items as [|item items IH]; intros accounts Ha H; simpl;
    [ exact Ha | ].
  apply IH; [ | intros it Hit; apply H; right; exact Hit ].
  unfold applyItem. destruct (mode item) eqn:Em; simpl; trivial.
  - apply in_or_app. left. exact Ha.
  - destruct (replaceFound (initialAccountId item) (account item) (elements accounts))
      as [r|] eqn:Er; simpl; [ | exact Ha ].
    apply replaceFound_Some in Er.
    destruct Er as (before & old & after & E1 & -> & Hold & _).
    rewrite E1 in Ha. apply in_app_or in Ha. apply in_or_app.
    destruct Ha as [Ha|[Ha|Ha]]; auto.
    + exfalso. subst old. apply (H item (or_introl eq_refl) Em). symmetry. exact Hold.
    + right. right. exact Ha.
Qed.

(** An existing account stays in the result unless a selected [update]
    item names its id. *)
Theorem reduce_keeps_untargeted existingAccounts items selectedAccounts a :
  In a existingAccounts ->
  (forall item, In item items -> isSelected selectedAccounts item = true ->
                mode item = mode_update -> initialAccountId item <> id a) ->
  In a (elements (importAccountsReduce existingAccounts items selectedAccounts)).
Proof.
  intros Ha H. unfold importAccountsReduce. apply fold_applyItem_keeps; [ exact Ha | ].
  intros item Hitem. apply filter_In in Hitem. destruct Hitem as [Hin Hsel]. auto.
Qed.

(** A selected [update] item whose [initialAccountId] no account has
    leaves the accounts as they are; its account lands in the property
    ["-1"] of the returned array. *)
Theorem reduce_update_without_target existingAccounts item selectedAccounts :
  mode item = mode_update ->
  isSelected selectedAccounts item = true ->
  (forall a, In a existingAccounts -> id a <> initialAccountId item) ->
  importAccountsReduce existingAccounts [item] selectedAccounts =
  {| elements := existingAccounts; minus_one := Some (account item) |}.
Proof.
  intros Hm Hs Hn. unfold importAccountsReduce. simpl. rewrite Hs. simpl.
  unfold applyItem. rewrite Hm. simpl.
  rewrite (proj2 (replaceFound_None _ _ _) Hn). reflexivity.
Qed.

(** A selected [update] item replaces the first account that has its
    [initialAccountId], in place; the accounts before and after it are not
    touched. *)
Theorem reduce_update_in_place before old after item selectedAccounts :
  mode item = mode_update ->
  isSelected selectedAccounts item = true ->
  id old = initialAccountId item ->
  (forall a, In a before -> id a <> initialAccountId item) ->
  importAccountsReduce (before ++ old :: after) [item] selectedAccounts =
  {| elements := before ++ account item :: after; minus_one := None |}.
Proof.
  intros Hm Hs Hold Hb. unfold importAccountsReduce. simpl. rewrite Hs. simpl.
  unfold applyItem. rewrite Hm. simpl.
  rewrite (proj2 (replaceFound_Some _ _ _ (before ++ account item :: after))).
  - reflexivity.
  - exists before, old, after. auto.
Qed.

(** Without a selected [update], the selected [create] items are appended
    in the order of the items. *)
Theorem reduce_appends_created existingAccounts items selectedAccounts :
  (forall item, In item items -> isSelected selectedAccounts item = true ->
                mode item <> mode_update) ->
  importAccountsReduce existingAccounts items selectedAccounts =
  {| elements := existingAccounts
                 ++ map account (filter isCreate (selectedItems items selectedAccounts));
     minus_one := None |}.
Proof.
  unfold importAccountsReduce, selectedItems.
  assert (G : forall l accounts,
             (forall item, In item l -> mode item <> mode_update) ->
             fold_left applyItem l accounts =
             {| elements := elements accounts ++ map account (filter isCreate l);
                minus_one := minus_one accounts |}).
  { induction l as [|item l IH]; intros accounts H; simpl.
    - rewrite app_nil_r. destruct accounts; reflexivity.
    - rewrite IH by (intros it Hit; apply H; right; exact Hit).
      pose proof (H item (or_introl eq_refl)) as Hi.
      unfold applyItem, isCreate. destruct (mode item); simpl; try reflexivity.
      + rewrite <- app_assoc. reflexivity.
      + contradiction. }
  intros H. rewrite G; [ reflexivity | ].
  intros item Hitem. apply filter_In in Hitem. destruct Hitem as [Hin Hsel]. auto.
Qed.

(** Importing in two batches is importing at once: the items of the second
    batch are applied to the accounts the first batch leaves. *)
Theorem reduce_in_batches existingAccounts items1 items2 selectedAccounts :
  elements (importAccountsReduce existingAccounts (items1 ++ items2) selectedAccounts) =
  elements (importAccountsReduce
              (elements (importAccountsReduce existingAccounts items1 selectedAccounts))
              items2 selectedAccounts).
Proof.
  unfold importAccountsReduce. rewrite filter_app, fold_left_app.
  generalize (fold_left applyItem (filter (isSelected selectedAccounts) items1)
                {| elements := existingAccounts; minus_one := None |}).
  generalize (filter (isSelected selectedAccounts) items2).
  intros l. induction l as [|item l IH]; intros accounts; simpl; [ reflexivity | ].
  rewrite IH. symmetry. rewrite IH. f_equal. f_equal.
  unfold applyItem. destruct (mode item); simpl; try reflexivity.
  destruct (replaceFound (initialAccountId item) (account item) (elements accounts));
    reflexivity.
Qed.

(** ** The two functions together *)

(** An [update] item made without previous items finds its account: applied
    to the accounts it was made for, it replaces one of them and the
    property ["-1"] stays unset. *)
Theorem fresh_update_finds_its_account x result existing item selectedAccounts :
  In item (importAccountsMakeItems x result existing None) ->
  minus_one (importAccountsReduce existing [item] selectedAccounts) = None.
Proof.
  intros Hin. apply makeItems_well_targeted in Hin. destruct Hin as [[]|Hw].
  unfold importAccountsReduce. simpl.
  destruct (isSelected selectedAccounts item); simpl; [ | reflexivity ].
  unfold applyItem. unfold wellTargeted in Hw.
  destruct (mode item); simpl; try reflexivity.
  destruct (replaceFound (initialAccountId item) (account item) existing) as [r|] eqn:Er;
    [ reflexivity | ].
  exfalso. destruct Hw as [a [Ha Hid]].
  apply (proj1 (replaceFound_None _ _ _) Er a Ha). symmetry. exact Hid.
Qed.

(** On the sample the function gives the three items, in display order. *)
Example sample_items :
  importAccountsMakeItems cross scanned [savings; wallet] None
  = [createRipple; renameSavings; keepWallet].
Proof. reflexivity. Qed.

Lemma makeItems_reuses_previous_items_witness :
  (forall item,
     In item (importAccountsMakeItems cross {| accounts := [newRipple; sameWallet] |}
                [savings; wallet] (Some [keepWallet; createRipple])) ->
     In item [keepWallet; createRipple]) /\
  (forall x' existing',
     importAccountsMakeItems x' {| accounts := [newRipple; sameWallet] |} existing'
       (Some [keepWallet; createRipple]) =
     importAccountsMakeItems cross {| accounts := [newRipple; sameWallet] |} [savings; wallet]
       (Some [keepWallet; createRipple])).
Proof.
  apply (makeItems_reuses_previous_items cross {| accounts := [newRipple; sameWallet] |}
           [savings; wallet] [keepWallet; createRipple]).
  intros accInput [<-|[<-|[]]].
  - exists createRipple. split; [ right; left; reflexivity | reflexivity ].
  - exists keepWallet. split; [ left; reflexivity | reflexivity ].
Defined.

Lemma makeItems_well_targeted_witness :
  In renameSavings (orEmpty None) \/
  wellTargeted cross [savings; wallet] (accounts scanned) renameSavings.
Proof.
  apply (makeItems_well_targeted cross scanned [savings; wallet] None renameSavings).
  right. left. reflexivity.
Defined.

Lemma makeItems_feedback_witness :
  importAccountsMakeItems cross scanned [savings; wallet]
    (Some (importAccountsMakeItems cross scanned [savings; wallet] None))
  = importAccountsMakeItems cross scanned [savings; wallet] None.
Proof.
  apply (makeItems_feedback cross scanned [savings; wallet]).
  - repeat constructor; simpl; intuition discriminate.
  - intros accInput a. simpl. destruct (data_id accInput =? "unknown:1"); [ discriminate | ].
    intros H. injection H as <-. reflexivity.
Defined.

Lemma reduce_ignores_unchanged_witness :
  importAccountsReduce [savings; wallet] [keepWallet; createRipple] ["ethereum:1"]
  = {| elements := [savings; wallet]; minus_one := None |}.
Proof.
  apply (reduce_ignores_unchanged [savings; wallet] [keepWallet; createRipple] ["ethereum:1"]).
  intros item [<-|[<-|[]]] Hs.
  - left. reflexivity.
  - discriminate Hs.
Defined.

Lemma reduce_origin_witness :
  In (account renameSavings) [savings; wallet] \/
  exists item,
    In item [renameSavings; createRipple] /\
    isSelected ["bitcoin:1"; "ripple:1"] item = true /\
    (mode item = mode_create \/ mode item = mode_update) /\
    account item = account renameSavings.
Proof.
  apply (reduce_origin [savings; wallet] [renameSavings; createRipple]
           ["bitcoin:1"; "ripple:1"] (account renameSavings)).
  left. reflexivity.
Defined.

Lemma reduce_keeps_untargeted_witness :
  In wallet
     (elements (importAccountsReduce [savings; wallet] [renameSavings; createRipple]
                  ["bitcoin:1"; "ripple:1"])).
Proof.
  apply (reduce_keeps_untargeted [savings; wallet] [renameSavings; createRipple]
           ["bitcoin:1"; "ripple:1"] wallet).
  - right. left. reflexivity.
  - intros item [<-|[<-|[]]] _ Hm; [ discriminate | discriminate Hm ].
Defined.

Lemma reduce_update_without_target_witness :
  importAccountsReduce [savings; wallet] [renameLitecoin] ["litecoin:2"]
  = {| elements := [savings; wallet]; minus_one := Some (account renameLitecoin) |}.
Proof.
  apply (reduce_update_without_target [savings; wallet] renameLitecoin ["litecoin:2"]).
  - reflexivity.
  - reflexivity.
  - intros a [<-|[<-|[]]]; discriminate.
Defined.

Lemma reduce_update_in_place_witness :
  importAccountsReduce ([wallet] ++ savings :: [wallet]) [renameSavings] ["bitcoin:1"]
  = {| elements := [wallet] ++ account renameSavings :: [wallet]; minus_one := None |}.
Proof.
  apply (reduce_update_in_place [wallet] savings [wallet] renameSavings ["bitcoin:1"]).
  - reflexivity.
  - reflexivity.
  - reflexivity.
  - intros a [<-|[]]. discriminate.
Defined.

Lemma reduce_appends_created_witness :
  importAccountsReduce [savings; wallet] [createRipple; keepWallet] ["ripple:1"; "ethereum:1"]
  = {| elements :=
         [savings; wallet]
         ++ map account
              (filter isCreate
                 (selectedItems [createRipple; keepWallet] ["ripple:1"; "ethereum:1"]));
       minus_one := None |}.
Proof.
  apply (reduce_appends_created [savings; wallet] [createRipple; keepWallet]
           ["ripple:1"; "ethereum:1"]).
  intros item [<-|[<-|[]]] _; discriminate.
Defined.

Lemma fresh_update_finds_its_account_witness :
  minus_one (importAccountsReduce [savings; wallet] [renameSavings] ["bitcoin:1"]) = None.
Proof.
  apply (fresh_update_finds_its_account cross scanned [savings; wallet] renameSavings
           ["bitcoin:1"]).
  right. left. reflexivity.
Defined.

End ImportAccountsFacts.
